(** * react-gamepad: the [useGamepad] hook, embedded and verified

    A shallow embedding of [src/useGamepad.js].  The hook keeps four pieces of
    React state ([gamepads], [buttonStates], [axisStates],
    [isGamepadConnected]) and one ref ([prevTimestamps]); its handlers only
    use functional state updates and direct ref mutation, so each handler is
    a function from the store before to the store after.  The host
    ([navigator.getGamepads]) is an explicit input of every handler that
    consults it.

    JavaScript numbers are IEEE 754 binary64 values: they are modelled by the
    inductive [spec_float] of the Standard Library, with its operations at
    precision 53 and maximal exponent 1024. *)

From Stdlib Require Import ZArith SpecFloat.
From stdpp Require Import gmap list sorting strings.

(* ===================================================================== *)
(** * JavaScript numbers *)
(* ===================================================================== *)

Module Num.

Abbreviation number := spec_float.

Definition prec : Z := 53.
Definition emax : Z := 1024.

(** The literal [0]. *)
Definition zero : number := S754_zero false.

(** [ToBoolean] on a number: [+0], [-0] and [NaN] are falsy. *)
Definition truthy (x : number) : bool :=
  match x with
  | S754_zero _ | S754_nan => false
  | S754_infinity _ | S754_finite _ _ _ => true
  end.

(** [Math.abs]. *)
Definition abs (x : number) : number := SFabs x.

(** [x > y], [x === y] and [x !== y] on numbers. *)
Definition gt (x y : number) : bool := SFltb y x.
Definition strict_eq (x y : number) : bool := SFeqb x y.
Definition strict_neq (x y : number) : bool := negb (strict_eq x y).

(** The number nearest to the decimal [(-1)^neg * n / 10^f] (ties to
    even): what a numeric literal denotes, and what [parseFloat] returns
    on a plain decimal string. *)
Definition decimal (neg : bool) (n : N) (f : nat) : number :=
  match n with
  | N0 => S754_zero neg
  | Npos p =>
      SFdiv prec emax (S754_finite neg p 0)
            (S754_finite false (Z.to_pos (10 ^ Z.of_nat f)) 0)
  end.

(** The strings [Number.prototype.toFixed] can return, by their shape:
    ["NaN"], ["Infinity"] and ["-Infinity"]; an optional sign followed by
    the digits of [n] with the decimal point before the last [f] of them;
    and, for magnitudes of at least [10^21], the shortest decimal that
    reads back as the number itself ([Number::toString]). *)
Inductive num_string :=
| StrNaN
| StrInfinity (neg : bool)
| StrFixed (neg : bool) (n : N) (f : nat)
| StrShortest (x : number).

(** The integer [n] for which [n / 10^f - m * 2^e] is as close to zero as
    possible; of two such [n], the larger. *)
Definition nearest_scaled (m : positive) (e : Z) (f : nat) : Z :=
  let a := (Z.pos m * 10 ^ Z.of_nat f)%Z in
  match e with
  | Zneg k => ((a + 2 ^ (Z.pos k - 1)) / 2 ^ Z.pos k)%Z
  | _ => (a * 2 ^ e)%Z
  end.

(** [x.toFixed(f)] for [0 <= f <= 100]. *)
Definition toFixed (x : number) (f : nat) : num_string :=
  match x with
  | S754_nan => StrNaN
  | S754_infinity s => StrInfinity s
  | S754_zero _ => StrFixed false 0 f
  | S754_finite s m e =>
      if SFleb (decimal false (10 ^ 21) 0) (S754_finite false m e)
      then StrShortest x
      else StrFixed s (Z.to_N (nearest_scaled m e f)) f
  end.

(** [parseFloat] on those strings. *)
Definition parseFloat (s : num_string) : number :=
  match s with
  | StrNaN => S754_nan
  | StrInfinity neg => S754_infinity neg
  | StrFixed neg n f => decimal neg n f
  | StrShortest x => x
  end.

End Num.

Export Num.

(* ===================================================================== *)
(** * Host data: the Gamepad API objects the hook reads *)
(* ===================================================================== *)

(** A [GamepadButton] of the host. [touched] is missing on some hosts. *)
Record GamepadButton := {
  gb_pressed : bool;
  gb_value : number;
  gb_touched : option bool
}.

(** A [Gamepad] snapshot of the host. *)
Record Gamepad := {
  index : nat;
  id : string;
  timestamp : number;
  buttons : list GamepadButton;
  axes : list number
}.

(** [navigator]: [None] when [navigator.getGamepads] is not there, otherwise
    the array it returns, whose empty slots are [null]. *)
Definition Navigator := option (list (option Gamepad)).

(** [navigator.getGamepads ? navigator.getGamepads() : []] *)
Definition getGamepads (navigator : Navigator) : list (option Gamepad) :=
  match navigator with
  | Some pads => pads
  | None => []
  end.

(* ===================================================================== *)
(** * JavaScript objects keyed by integers *)
(* ===================================================================== *)

(** The objects of the hook are keyed by slot, button or axis index.  A
    lookup of a missing key is [undefined] ([None]); [for ... in] and
    [Object.values] enumerate integer keys in ascending order. *)

Definition key_le {A} (x y : nat * A) : Prop := x.1 ≤ y.1.

#[global] Instance key_le_dec {A} : RelDecision (@key_le A).
Proof. intros x y. unfold key_le. apply _. Defined.

Definition object_entries {A} (o : gmap nat A) : list (nat * A) :=
  merge_sort key_le (map_to_list o).

Definition object_values {A} (o : gmap nat A) : list A :=
  (object_entries o).*2.

(** [array.forEach((x, index) => ...)] threading the object being built. *)
Fixpoint forEach_from {A B} (f : A → nat → B → B) (l : list A) (i : nat)
    (acc : B) : B :=
  match l with
  | [] => acc
  | x :: l' => forEach_from f l' (S i) (f x i acc)
  end.

Definition forEach {A B} (f : A → nat → B → B) (l : list A) (acc : B) : B :=
  forEach_from f l 0 acc.

(* ===================================================================== *)
(** * The store of the hook *)
(* ===================================================================== *)

(** The published state of one button. *)
Record ButtonState := {
  pressed : bool;
  value : number;
  touched : option bool
}.

Record Store := {
  gamepads : gmap nat Gamepad;
  buttonStates : gmap nat (gmap nat ButtonState);
  axisStates : gmap nat (gmap nat number);
  isGamepadConnected : bool;
  prevTimestamps : gmap nat number
}.

(** [useState({})], [useState(false)], [useRef({})]. *)
Definition initial_store : Store := {|
  gamepads := ∅;
  buttonStates := ∅;
  axisStates := ∅;
  isGamepadConnected := false;
  prevTimestamps := ∅
|}.

Definition setGamepads (f : gmap nat Gamepad → gmap nat Gamepad) (s : Store) :=
  {| gamepads := f (gamepads s);
     buttonStates := buttonStates s;
     axisStates := axisStates s;
     isGamepadConnected := isGamepadConnected s;
     prevTimestamps := prevTimestamps s |}.

Definition setButtonStates
    (f : gmap nat (gmap nat ButtonState) → gmap nat (gmap nat ButtonState))
    (s : Store) :=
  {| gamepads := gamepads s;
     buttonStates := f (buttonStates s);
     axisStates := axisStates s;
     isGamepadConnected := isGamepadConnected s;
     prevTimestamps := prevTimestamps s |}.

Definition setAxisStates
    (f : gmap nat (gmap nat number) → gmap nat (gmap nat number))
    (s : Store) :=
  {| gamepads := gamepads s;
     buttonStates := buttonStates s;
     axisStates := f (axisStates s);
     isGamepadConnected := isGamepadConnected s;
     prevTimestamps := prevTimestamps s |}.

Definition setIsGamepadConnected (b : bool) (s : Store) :=
  {| gamepads := gamepads s;
     buttonStates := buttonStates s;
     axisStates := axisStates s;
     isGamepadConnected := b;
     prevTimestamps := prevTimestamps s |}.

(** A write to the ref [prevTimestamps.current]. *)
Definition setPrevTimestamps (f : gmap nat number → gmap nat number)
    (s : Store) :=
  {| gamepads := gamepads s;
     buttonStates := buttonStates s;
     axisStates := axisStates s;
     isGamepadConnected := isGamepadConnected s;
     prevTimestamps := f (prevTimestamps s) |}.

(* ===================================================================== *)
(** * The handlers of [useGamepad] *)
(* ===================================================================== *)

Section Hook.

(** [const { deadzone = 0.1, pollInterval = 16 } = options] *)
Variable deadzone : number.

(** ** [handleGamepadConnected] *)
Definition handleGamepadConnected (gamepad : Gamepad) (s : Store) : Store :=
  let s := setGamepads (λ prev, <[index gamepad := gamepad]> prev) s in
  let s := setPrevTimestamps (λ cur, <[index gamepad := zero]> cur) s in
  setIsGamepadConnected true s.

(** ** [handleGamepadDisconnected] *)
Definition handleGamepadDisconnected (navigator : Navigator)
    (gamepad : Gamepad) (s : Store) : Store :=
  let s := setGamepads (λ prev, delete (index gamepad) prev) s in
  let s := setButtonStates (λ prev, delete (index gamepad) prev) s in
  let s := setAxisStates (λ prev, delete (index gamepad) prev) s in
  let s := setPrevTimestamps (λ cur, delete (index gamepad) cur) s in
  let remaining := getGamepads navigator in
  let hasConnected := existsb (λ gp, bool_decide (gp ≠ None)) remaining in
  setIsGamepadConnected hasConnected s.

(** ** [checkGamepadInputs] *)

(** [gamepad.timestamp !== prevTimestamps.current[gamepad.index]]: a
    number differs from [undefined]. *)
Definition timestamp_differs (ts : number) (stored : option number) : bool :=
  match stored with
  | Some prev => strict_neq ts prev
  | None => true
  end.

(** The test of lines 84-87. *)
Definition gamepad_changed (s : Store) (gamepad : Gamepad) : bool :=
  truthy (timestamp gamepad)
  && timestamp_differs (timestamp gamepad)
       (prevTimestamps s !! index gamepad).

(** Lines 93-97: the object literal stored for one button. *)
Definition button_state (button : GamepadButton) : ButtonState :=
  {| pressed := gb_pressed button;
     value := gb_value button;
     touched := gb_touched button |}.

(** Lines 91-98: the object [padButtons]. *)
Definition padButtons (gamepad : Gamepad) : gmap nat ButtonState :=
  forEach (λ button index acc, <[index := button_state button]> acc)
          (buttons gamepad) ∅.

(** Lines 109-113: what is stored for one axis value. *)
Definition normalize_axis (axisValue : number) : number :=
  if gt (abs axisValue) deadzone
  then parseFloat (toFixed axisValue 4)
  else zero.

(** Lines 106-114: the object [padAxes]. *)
Definition padAxes (gamepad : Gamepad) : gmap nat number :=
  forEach
    (λ axisValue index acc, <[index := normalize_axis axisValue]> acc)
    (axes gamepad) ∅.

(** The body of the loop for a slot that is not empty. *)
Definition poll_gamepad (s : Store) (gamepad : Gamepad) : Store :=
  if gamepad_changed s gamepad then
    let s :=
      setPrevTimestamps
        (λ cur, <[index gamepad := timestamp gamepad]> cur) s in
    let s :=
      setButtonStates
        (λ prev, <[index gamepad := padButtons gamepad]> prev) s in
    setAxisStates (λ prev, <[index gamepad := padAxes gamepad]> prev) s
  else s.

Definition poll_slot (s : Store) (slot : option Gamepad) : Store :=
  match slot with
  | None => s
  | Some gamepad => poll_gamepad s gamepad
  end.

Definition checkGamepadInputs (navigator : Navigator) (s : Store) : Store :=
  let currentGamepads := getGamepads navigator in
  fold_left poll_slot currentGamepads s.

(** ** The effect run on mount: the scan of lines 130-148 *)

Definition scan_slot
    (acc : gmap nat Gamepad * gmap nat number * bool)
    (slot : option Gamepad) : gmap nat Gamepad * gmap nat number * bool :=
  match slot with
  | None => acc
  | Some gamepad =>
      let '(connectedPads, cur, _) := acc in
      (<[index gamepad := gamepad]> connectedPads,
       <[index gamepad := zero]> cur,
       true)
  end.

Definition mount (navigator : Navigator) (s : Store) : Store :=
  let initialGamepads := getGamepads navigator in
  let '(connectedPads, cur, hasConnected) :=
    fold_left scan_slot initialGamepads (∅, prevTimestamps s, false) in
  let s := setPrevTimestamps (λ _, cur) s in
  if hasConnected
  then setIsGamepadConnected true (setGamepads (λ _, connectedPads) s)
  else s.

(** ** The query functions *)

(** [padButtons[buttonIndex]?.pressed], as a condition. *)
Definition button_pressed (padButtons : gmap nat ButtonState)
    (buttonIndex : nat) : bool :=
  match padButtons !! buttonIndex with
  | Some b => pressed b
  | None => false
  end.

Definition isButtonPressed (s : Store) (buttonIndex : nat) : bool :=
  existsb (λ padButtons, button_pressed padButtons buttonIndex)
          (object_values (buttonStates s)).

Definition isButtonPressedOnGamepad (s : Store)
    (gamepadIndex buttonIndex : nat) : bool :=
  match buttonStates s !! gamepadIndex with
  | Some padButtons => button_pressed padButtons buttonIndex || false
  | None => false
  end.

(** [value && Math.abs(value) > deadzone] *)
Definition axis_counts (value : option number) : bool :=
  match value with
  | Some v => truthy v && gt (abs v) deadzone
  | None => false
  end.

(** The loop of [getAxisValue] over the entries still to visit. *)
Fixpoint getAxisValue_loop (axisIndex : nat)
    (pads : list (nat * gmap nat number)) : number :=
  match pads with
  | [] => zero
  | (padIndex, pad) :: rest =>
      let value := pad !! axisIndex in
      if axis_counts value
      then default zero value
      else getAxisValue_loop axisIndex rest
  end.

Definition getAxisValue (s : Store) (axisIndex : nat) : number :=
  getAxisValue_loop axisIndex (object_entries (axisStates s)).

(** [axisStates[gamepadIndex]?.[axisIndex] || 0] *)
Definition getAxisValueForGamepad (s : Store)
    (gamepadIndex axisIndex : nat) : number :=
  match axisStates s !! gamepadIndex ≫= (λ pad, pad !! axisIndex) with
  | Some v => if truthy v then v else zero
  | None => zero
  end.

End Hook.

(* ===================================================================== *)
(** * Sessions: the events a mounted hook reacts to *)
(* ===================================================================== *)

Inductive event :=
| Attach (gamepad : Gamepad)
| Detach (navigator : Navigator) (gamepad : Gamepad)
| Tick (navigator : Navigator).

Definition step (deadzone : number) (s : Store) (ev : event) : Store :=
  match ev with
  | Attach gamepad => handleGamepadConnected gamepad s
  | Detach navigator gamepad => handleGamepadDisconnected navigator gamepad s
  | Tick navigator => checkGamepadInputs deadzone navigator s
  end.

(** The store after the mount effect and then the events [evs], each of
    which the host may only send when [allowed] in the store it meets. *)
Inductive reachable (deadzone : number) (allowed : Store → event → Prop) :
    Store → Prop :=
| reach_mount navigator :
    reachable deadzone allowed (mount navigator initial_store)
| reach_step s ev :
    reachable deadzone allowed s →
    allowed s ev →
    reachable deadzone allowed (step deadzone s ev).

(** No assumption on the host. *)
Definition any_event (s : Store) (ev : event) : Prop := True.

(** A host whose ticks only show devices that were announced before: every
    device a tick sees has an entry in the device set. *)
Definition announced (s : Store) (ev : event) : Prop :=
  match ev with
  | Tick navigator =>
      ∀ gamepad, Some gamepad ∈ getGamepads navigator →
                 is_Some (gamepads s !! index gamepad)
  | _ => True
  end.

(** The host list puts every device at the position of its [index]. *)
Definition host_indexed (pads : list (option Gamepad)) : Prop :=
  ∀ i gamepad, pads !! i = Some (Some gamepad) → index gamepad = i.

(** Two host lists that show the same devices with the same timestamps
    (their buttons and axes may differ). *)
Definition same_stamp (a b : option Gamepad) : Prop :=
  match a, b with
  | None, None => True
  | Some g, Some g' => index g = index g' ∧ timestamp g = timestamp g'
  | _, _ => False
  end.

Definition same_stamps (pads pads' : list (option Gamepad)) : Prop :=
  Forall2 same_stamp pads pads'.

(* ===================================================================== *)
(** * The words of the specification *)
(* ===================================================================== *)

(** "non-zero" for a stored axis value. *)
Definition nonzero (v : number) : Prop := ∀ s, v ≠ S754_zero s.

(** "non-zero (magnitude > deadzone)": what makes a stored value count for
    the query over all devices. *)
Definition counts (deadzone v : number) : Prop :=
  nonzero v ∧ gt (abs v) deadzone = true.

(** "v rounded to [f] decimal places", for [v = (-1)^s * m * 2^e]: the
    number nearest to the decimal [n / 10^f], where the integer [n] is at
    most one half away from [|v| * 10^f].  A magnitude of [10^21] or more is
    an integer already, and so is its own rounding; so are the infinities. *)
Definition rounds_to (f : nat) (v r : number) : Prop :=
  match v with
  | S754_finite s m e =>
      if SFleb (decimal false (10 ^ 21) 0) (abs v) then r = v
      else
        ∃ n : N,
          (2 * Z.abs (Z.of_N n * 2 ^ Z.max 0 (- e)
                      - Z.pos m * 10 ^ Z.of_nat f * 2 ^ Z.max 0 e)
           ≤ 2 ^ Z.max 0 (- e))%Z
          ∧ r = decimal s n f
  | S754_zero _ => r = zero
  | S754_infinity _ | S754_nan => r = v
  end.

(* ===================================================================== *)
(** * Sample devices and sessions *)
(* ===================================================================== *)

Module Sample.

(** [deadzone = 0.1], the default of the options. *)
Definition default_deadzone : number := decimal false 1 1.

Definition half : number := decimal false 5 1.

Definition button_a : GamepadButton :=
  {| gb_pressed := true;
     gb_value := decimal false 1 0;
     gb_touched := Some true |}.

(** A device with one pressed button. *)
Definition pad (slot : nat) (ts : number) (axs : list number) : Gamepad :=
  {| index := slot;
     id := "Sample pad";
     timestamp := ts;
     buttons := [button_a];
     axes := axs |}.

(** A store that only holds axis values. *)
Definition axes_only (axs : gmap nat (gmap nat number)) : Store :=
  {| gamepads := ∅;
     buttonStates := ∅;
     axisStates := axs;
     isGamepadConnected := true;
     prevTimestamps := ∅ |}.

End Sample.

(** What the store holds for one slot besides the device entry. *)
Definition slot_view (s : Store) (k : nat)
    : option number * option (gmap nat ButtonState)
      * option (gmap nat number) :=
  (prevTimestamps s !! k, buttonStates s !! k, axisStates s !! k).

(** No two devices of the list have the same [index]. *)
Definition distinct_slots (pads : list (option Gamepad)) : Prop :=
  ∀ i j g g',
    pads !! i = Some (Some g) → pads !! j = Some (Some g') →
    index g = index g' → i = j.

(** What every store of a session satisfies: button and axis states are
    published for the same slots, and a slot with published state or with a
    device entry has a stored timestamp. *)
Definition store_consistent (s : Store) : Prop :=
  ∀ k,
    (is_Some (buttonStates s !! k) ↔ is_Some (axisStates s !! k))
    ∧ (is_Some (buttonStates s !! k) → is_Some (prevTimestamps s !! k))
    ∧ (is_Some (gamepads s !! k) → is_Some (prevTimestamps s !! k)).

(** Published state only for slots of the device set. *)
Definition state_has_device (s : Store) : Prop :=
  ∀ k,
    is_Some (buttonStates s !! k) ∨ is_Some (axisStates s !! k) →
    is_Some (gamepads s !! k).

(** The stores a mounted hook goes through, under the deadzone that is
    current.  The effect runs on mount; the handlers run on the events; and
    React runs the effect again, on the store as it is by then, whenever
    [deadzone] or [pollInterval] change ([deadzone'] is the deadzone from
    then on, the old one when only [pollInterval] changed).  The host may
    only send an event when [allowed], and the effect only runs again over a
    host list that is [relisting], in the store they meet. *)
Inductive hook_reachable (allowed : Store → event → Prop)
    (relisting : Store → Navigator → Prop) : number → Store → Prop :=
| hook_mount deadzone navigator :
    hook_reachable allowed relisting deadzone (mount navigator initial_store)
| hook_step deadzone s ev :
    hook_reachable allowed relisting deadzone s →
    allowed s ev →
    hook_reachable allowed relisting deadzone (step deadzone s ev)
| hook_rerun deadzone deadzone' s navigator :
    hook_reachable allowed relisting deadzone s →
    relisting s navigator →
    hook_reachable allowed relisting deadzone' (mount navigator s).

(** No assumption on the host list of a run of the effect. *)
Definition any_list (s : Store) (navigator : Navigator) : Prop := True.

(** A host list that shows no device at all, or shows a device for every slot
    that has published state. *)
Definition relisted (s : Store) (navigator : Navigator) : Prop :=
  (∀ gamepad, Some gamepad ∉ getGamepads navigator)
  ∨ (∀ k,
       is_Some (buttonStates s !! k) ∨ is_Some (axisStates s !! k) →
       ∃ gamepad, Some gamepad ∈ getGamepads navigator ∧ index gamepad = k).

(** Every published axis value is a number that is not NaN. *)
Definition axes_are_numbers (s : Store) : Prop :=
  ∀ k pad j v,
    axisStates s !! k = Some pad → pad !! j = Some v → v ≠ S754_nan.

(* ===================================================================== *)
(** * Proofs *)
(* ===================================================================== *)

Section NumberFacts.
Implicit Types x y : number.

Lemma SFcompare_swap x y : SFcompare y x = CompOpp <$> SFcompare x y.
Proof.
  destruct x as [[]|[]| |[] m1 e1], y as [[]|[]| |[] m2 e2]; simpl; try reflexivity.
  all: rewrite (Z.compare_antisym e1 e2); destruct (e1 ?= e2)%Z; simpl; try reflexivity.
  all: rewrite (Pos.compare_cont_antisym m1 m2 Eq); simpl; try reflexivity.
  all: by destruct (Pos.compare_cont Eq m1 m2).
Qed.

Lemma gt_false_of_le x y : SFleb x y = true → gt x y = false.
Proof.
  unfold gt, SFleb, SFltb. rewrite (SFcompare_swap x y).
  by destruct (SFcompare x y) as [[]|].
Qed.

Lemma strict_eq_truthy_iff x y :
  truthy x = true → strict_eq x y = true ↔ x = y.
Proof.
  intros Hx. unfold strict_eq, SFeqb. split.
  - destruct x as [[]|[]| |[] m1 e1], y as [[]|[]| |[] m2 e2];
      simpl in *; try discriminate; try reflexivity.
    all: destruct (e1 ?= e2)%Z eqn:He; try discriminate.
    all: apply Z.compare_eq in He; subst e2.
    all: destruct (Pos.compare_cont Eq m1 m2) eqn:Hm; try discriminate.
    all: apply Pos.compare_eq in Hm; by subst m2.
  - intros <-. destruct x as [[]|[]| |[] m1 e1]; simpl in *; try discriminate;
      try reflexivity.
    all: rewrite Z.compare_refl; fold (Pos.compare m1 m1); by rewrite Pos.compare_refl.
Qed.

Lemma truthy_nonzero x : truthy x = true → nonzero x.
Proof. intros Hx s ->. discriminate. Qed.

Lemma gt_abs_not_nan x d : gt (abs x) d = true → x ≠ S754_nan.
Proof. intros H ->. unfold gt, SFltb in H. simpl in H. by destruct d. Qed.

Lemma nearest_scaled_nonneg m e f : (0 ≤ nearest_scaled m e f)%Z.
Proof.
  unfold nearest_scaled. destruct e as [|k|k].
  - lia.
  - apply Z.mul_nonneg_nonneg; [|apply Z.pow_nonneg]; lia.
  - apply Z.div_pos; [|apply Z.pow_pos_nonneg; lia].
    assert (0 ≤ 2 ^ (Z.pos k - 1))%Z by (apply Z.pow_nonneg; lia). lia.
Qed.

Lemma nearest_scaled_close m e f :
  (2 * Z.abs (nearest_scaled m e f * 2 ^ Z.max 0 (- e)
              - Z.pos m * 10 ^ Z.of_nat f * 2 ^ Z.max 0 e)
   ≤ 2 ^ Z.max 0 (- e))%Z.
Proof.
  unfold nearest_scaled. destruct e as [|k|k].
  - change (Z.max 0 (- 0)) with 0%Z. change (Z.max 0 0) with 0%Z.
    rewrite !Z.pow_0_r. lia.
  - replace (Z.max 0 (- Z.pos k)) with 0%Z by lia.
    replace (Z.max 0 (Z.pos k)) with (Z.pos k) by lia.
    rewrite Z.pow_0_r. lia.
  - replace (Z.max 0 (- Z.neg k)) with (Z.pos k) by lia.
    replace (Z.max 0 (Z.neg k)) with 0%Z by lia.
    rewrite Z.pow_0_r, Z.mul_1_r.
    set (a := (Z.pos m * 10 ^ Z.of_nat f)%Z).
    set (h := (2 ^ (Z.pos k - 1))%Z).
    assert (Hb : (2 ^ Z.pos k = 2 * h)%Z).
    { unfold h. rewrite <- Z.pow_succ_r by lia. f_equal. lia. }
    assert (Hh : (0 < h)%Z) by (apply Z.pow_pos_nonneg; lia).
    rewrite Hb.
    pose proof (Z.div_mod (a + h) (2 * h) ltac:(lia)) as Hdm.
    pose proof (Z.mod_pos_bound (a + h) (2 * h) ltac:(lia)) as Hmod.
    lia.
Qed.

End NumberFacts.

Lemma toFixed_rounds x f : rounds_to f x (parseFloat (toFixed x f)).
Proof.
  destruct x as [s|s| |s m e]; [reflexivity..|].
  unfold toFixed, rounds_to. cbn [abs SFabs].
  destruct (SFleb _ _); [reflexivity|].
  exists (Z.to_N (nearest_scaled m e f)). split; [|reflexivity].
  rewrite Z2N.id by apply nearest_scaled_nonneg.
  apply nearest_scaled_close.
Qed.

Section ObjectFacts.
Context {A : Type}.
Implicit Types (o : gmap nat A) (k : nat) (x : A).

Lemma object_entries_perm o : object_entries o ≡ₚ map_to_list o.
Proof. apply merge_sort_Permutation. Qed.

Lemma elem_of_object_entries o k x :
  (k, x) ∈ object_entries o ↔ o !! k = Some x.
Proof. rewrite object_entries_perm. apply elem_of_map_to_list. Qed.

Lemma elem_of_object_values o x :
  x ∈ object_values o ↔ ∃ k, o !! k = Some x.
Proof.
  unfold object_values. rewrite list_elem_of_fmap. split.
  - intros [[k y] [-> Hin]]. exists k. by apply elem_of_object_entries.
  - intros [k Hk]. exists (k, x). split; [done|].
    by apply elem_of_object_entries.
Qed.

#[local] Instance key_le_trans : Transitive (@key_le A).
Proof. intros x y z. unfold key_le. lia. Qed.

#[local] Instance key_le_total : Total (@key_le A).
Proof. intros x y. unfold key_le. lia. Qed.

Lemma object_entries_sorted o : StronglySorted key_le (object_entries o).
Proof. apply StronglySorted_merge_sort; apply _. Qed.

Lemma object_entries_empty : object_entries (∅ : gmap nat A) = [].
Proof.
  apply Permutation_nil_r. rewrite object_entries_perm.
  by rewrite map_to_list_empty.
Qed.

End ObjectFacts.

Section ForEachFacts.
Context {A B : Type} (g : A → B).

Lemma forEach_from_insert_lookup (l : list A) (i j : nat) (acc : gmap nat B) :
  forEach_from (λ x index acc, <[index := g x]> acc) l i acc !! j =
  if decide (i ≤ j)
  then match l !! (j - i) with
       | Some x => Some (g x)
       | None => acc !! j
       end
  else acc !! j.
Proof.
  revert i acc. induction l as [|x l IH]; intros i acc; simpl.
  - by case_decide.
  - rewrite IH. destruct (decide (i ≤ j)) as [Hij|Hij].
    + destruct (decide (i = j)) as [->|Hne].
      * rewrite decide_False by lia. rewrite Nat.sub_diag. simpl.
        by rewrite lookup_insert_eq.
      * rewrite decide_True by lia.
        replace (j - i) with (S (j - S i)) by lia. simpl.
        destruct (l !! (j - S i)); [done|]. by rewrite lookup_insert_ne.
    + rewrite decide_False by lia. rewrite lookup_insert_ne by lia. done.
Qed.

Lemma forEach_insert_lookup (l : list A) (j : nat) :
  forEach (λ x index acc, <[index := g x]> acc) l (∅ : gmap nat B) !! j
  = g <$> l !! j.
Proof.
  unfold forEach. rewrite forEach_from_insert_lookup.
  rewrite decide_True by lia. rewrite Nat.sub_0_r.
  destruct (l !! j); [done|]. apply lookup_empty.
Qed.

End ForEachFacts.

Lemma padButtons_lookup gp j :
  padButtons gp !! j = button_state <$> buttons gp !! j.
Proof. apply forEach_insert_lookup. Qed.

Lemma padAxes_lookup d gp j :
  padAxes d gp !! j = normalize_axis d <$> axes gp !! j.
Proof. apply (forEach_insert_lookup (normalize_axis d)). Qed.

Section StoreFacts.
Variable deadzone : number.
Implicit Types (s : Store) (gp : Gamepad).

Lemma poll_gamepad_unchanged s gp :
  gamepad_changed s gp = false → poll_gamepad deadzone s gp = s.
Proof. intros H. unfold poll_gamepad. by rewrite H. Qed.

Lemma poll_gamepad_changed s gp :
  gamepad_changed s gp = true →
  poll_gamepad deadzone s gp =
  {| gamepads := gamepads s;
     buttonStates := <[index gp := padButtons gp]> (buttonStates s);
     axisStates := <[index gp := padAxes deadzone gp]> (axisStates s);
     isGamepadConnected := isGamepadConnected s;
     prevTimestamps := <[index gp := timestamp gp]> (prevTimestamps s) |}.
Proof. intros H. unfold poll_gamepad. by rewrite H. Qed.

Lemma axis_counts_iff (v : number) :
  axis_counts deadzone (Some v) = true ↔ counts deadzone v.
Proof.
  unfold counts. simpl. rewrite andb_true_iff. split.
  - intros [Ht Hg]. split; [by apply truthy_nonzero | done].
  - intros [Hnz Hg]. split; [|done].
    destruct v as [z| | |]; try done.
    + by destruct (Hnz z).
    + by destruct (gt_abs_not_nan _ _ Hg).
Qed.

(** The loop returns the value of the first entry that counts. *)
Lemma getAxisValue_loop_first a (pads : list (nat * gmap nat number)) k pad v :
  StronglySorted key_le pads →
  (∀ k' p p', (k', p) ∈ pads → (k', p') ∈ pads → p = p') →
  (k, pad) ∈ pads →
  pad !! a = Some v →
  counts deadzone v →
  (∀ k' pad' v', k' < k → (k', pad') ∈ pads → pad' !! a = Some v' →
                 ¬ counts deadzone v') →
  getAxisValue_loop deadzone a pads = v.
Proof.
  intros Hs. induction Hs as [|[k0 p0] rest Hs IH Hall];
    intros Hfun Hin Hv Hc Hmin.
  - by apply elem_of_nil in Hin.
  - simpl. destruct (axis_counts deadzone (p0 !! a)) eqn:Hc0.
    + destruct (p0 !! a) as [v0|] eqn:Hv0; [|done]. simpl.
      apply axis_counts_iff in Hc0.
      apply elem_of_cons in Hin as [Heq|Hin].
      * inversion Heq; subst. congruence.
      * rewrite Forall_forall in Hall. specialize (Hall _ Hin).
        unfold key_le in Hall. simpl in Hall.
        destruct (decide (k0 = k)) as [->|Hne].
        -- assert (p0 = pad) as -> by (eapply Hfun; [left|by right]).
           congruence.
        -- exfalso. eapply (Hmin k0 p0 v0); [lia|left|done|done].
    + apply IH.
      * intros k' p p' H1 H2. eapply Hfun; by right.
      * apply elem_of_cons in Hin as [Heq|Hin]; [|done].
        inversion Heq; subst. rewrite Hv in Hc0.
        apply axis_counts_iff in Hc. congruence.
      * done.
      * done.
      * intros k' pad' v' Hlt Hin'. eapply Hmin; [done|by right].
Qed.

Lemma getAxisValue_loop_none a (pads : list (nat * gmap nat number)) :
  (∀ k pad v, (k, pad) ∈ pads → pad !! a = Some v → ¬ counts deadzone v) →
  getAxisValue_loop deadzone a pads = zero.
Proof.
  induction pads as [|[k0 p0] rest IH]; intros Hno; [done|].
  simpl. destruct (axis_counts deadzone (p0 !! a)) eqn:Hc0.
  - destruct (p0 !! a) as [v0|] eqn:Hv0; [|done].
    apply axis_counts_iff in Hc0. exfalso. eapply Hno; [left|done|done].
  - apply IH. intros k pad v Hin. eapply Hno. by right.
Qed.

End StoreFacts.

(** C1. A poll tick that finds a device changed stores, at every index of the
    device's raw axis list, exactly 0 when the magnitude of the raw value is
    at most the deadzone (the boundary included) and the raw value rounded to
    4 decimal places when the magnitude exceeds the deadzone; every button is
    stored at its index with its three fields copied. This holds for every
    deadzone, in particular for those in [0,1]. *)
Theorem axis_deadzone_normalization (deadzone : number) (s : Store)
    (gp : Gamepad) (i : nat) (v : number) :
  gamepad_changed s gp = true →
  axes gp !! i = Some v →
  let s' := poll_gamepad deadzone s gp in
  (∃ pad, axisStates s' !! index gp = Some pad
     ∧ (SFleb (abs v) deadzone = true → pad !! i = Some zero)
     ∧ (gt (abs v) deadzone = true →
          pad !! i = Some (parseFloat (toFixed v 4))
          ∧ rounds_to 4 v (parseFloat (toFixed v 4))))
  ∧ (∃ pb, buttonStates s' !! index gp = Some pb
     ∧ ∀ j b, buttons gp !! j = Some b →
         ∃ st, pb !! j = Some st
           ∧ pressed st = gb_pressed b
           ∧ value st = gb_value b
           ∧ touched st = gb_touched b).
Proof.
  intros Hch Hv s'. subst s'. rewrite (poll_gamepad_changed _ _ _ Hch). simpl.
  split.
  - exists (padAxes deadzone gp). rewrite lookup_insert_eq. split; [done|].
    rewrite padAxes_lookup, Hv. simpl. unfold normalize_axis. split.
    + intros Hle. by rewrite (gt_false_of_le _ _ Hle).
    + intros Hgt. rewrite Hgt. split; [done|]. apply toFixed_rounds.
  - exists (padButtons gp). rewrite lookup_insert_eq. split; [done|].
    intros j b Hb. exists (button_state b).
    rewrite padButtons_lookup, Hb. done.
Qed.

Lemma axis_deadzone_normalization_witness :
  let gp := Sample.pad 0 (decimal false 12345 1)
              [Sample.default_deadzone; decimal false 23456 5] in
  let s' := poll_gamepad Sample.default_deadzone initial_store gp in
  (∃ pad, axisStates s' !! 0 = Some pad
     ∧ (SFleb (abs Sample.default_deadzone) Sample.default_deadzone = true →
        pad !! 0 = Some zero)
     ∧ (gt (abs Sample.default_deadzone) Sample.default_deadzone = true →
          pad !! 0 = Some (parseFloat (toFixed Sample.default_deadzone 4))
          ∧ rounds_to 4 Sample.default_deadzone
              (parseFloat (toFixed Sample.default_deadzone 4))))
  ∧ (∃ pb, buttonStates s' !! 0 = Some pb
     ∧ ∀ j b, buttons gp !! j = Some b →
         ∃ st, pb !! j = Some st
           ∧ pressed st = gb_pressed b
           ∧ value st = gb_value b
           ∧ touched st = gb_touched b).
Proof.
  intros gp s'.
  apply (axis_deadzone_normalization Sample.default_deadzone initial_store
           gp 0 Sample.default_deadzone).
  - vm_compute. reflexivity.
  - reflexivity.
Defined.

Lemma getAxisValue_first deadzone s a k pad v :
  axisStates s !! k = Some pad →
  pad !! a = Some v →
  counts deadzone v →
  (∀ k' pad' v', k' < k → axisStates s !! k' = Some pad' →
                 pad' !! a = Some v' → ¬ counts deadzone v') →
  getAxisValue deadzone s a = v.
Proof.
  intros Hk Hv Hc Hmin. unfold getAxisValue.
  eapply getAxisValue_loop_first; eauto using object_entries_sorted.
  - intros k' p p' H1%elem_of_object_entries H2%elem_of_object_entries.
    congruence.
  - by apply elem_of_object_entries.
  - intros k' pad' v' Hlt Hin%elem_of_object_entries. by eapply Hmin.
Qed.

Lemma getAxisValue_none deadzone s a :
  (∀ k pad v, axisStates s !! k = Some pad → pad !! a = Some v →
              ¬ counts deadzone v) →
  getAxisValue deadzone s a = zero.
Proof.
  intros Hno. apply getAxisValue_loop_none.
  intros k pad v Hin%elem_of_object_entries. by eapply Hno.
Qed.

(** C2. [getAxisValue] returns the stored value of the lowest slot whose
    stored value for the axis is non-zero with a magnitude strictly above the
    deadzone, and 0 when no slot has such a value; with slots 0 and 1 both
    storing 0.5 for axis 0 under the deadzone 0.1 the result is 0.5, found at
    slot 0. *)
Theorem getAxisValue_first_match (deadzone : number) (s : Store) (a : nat) :
  (∀ k pad v,
     axisStates s !! k = Some pad →
     pad !! a = Some v →
     counts deadzone v →
     (∀ k' pad' v', k' < k → axisStates s !! k' = Some pad' →
                    pad' !! a = Some v' → ¬ counts deadzone v') →
     getAxisValue deadzone s a = v)
  ∧ ((∀ k pad v, axisStates s !! k = Some pad → pad !! a = Some v →
                 ¬ counts deadzone v) →
     getAxisValue deadzone s a = zero)
  ∧ (∀ pad0 pad1,
       axisStates s !! 0 = Some pad0 → pad0 !! 0 = Some Sample.half →
       axisStates s !! 1 = Some pad1 → pad1 !! 0 = Some Sample.half →
       getAxisValue Sample.default_deadzone s 0 = Sample.half).
Proof.
  split; [|split].
  - intros k pad v. apply getAxisValue_first.
  - apply getAxisValue_none.
  - intros pad0 pad1 H0 Hv0 _ _.
    eapply getAxisValue_first; [exact H0|exact Hv0| |].
    + split; [intros z; discriminate|]. vm_compute. reflexivity.
    + intros k' pad' v' Hlt. lia.
Qed.

Lemma getAxisValue_first_match_witness :
  let s := Sample.axes_only
             (<[2 := {[0 := zero]}]>
                (<[7 := {[0 := decimal true 75 2]}]>
                   (<[5 := {[0 := Sample.half]}]> ∅))) in
  getAxisValue Sample.default_deadzone s 0 = Sample.half.
Proof.
  intros s.
  destruct (getAxisValue_first_match Sample.default_deadzone s 0) as [H _].
  apply (H 5 {[0 := Sample.half]} Sample.half).
  - vm_compute. reflexivity.
  - vm_compute. reflexivity.
  - split; [intros z; discriminate|]. vm_compute. reflexivity.
  - intros k' pad' v' Hlt Hk' Hv'.
    assert (k' = 2) as ->.
    { destruct (decide (k' = 2)) as [|Hne]; [done|]. exfalso.
      unfold s, Sample.axes_only in Hk'. simpl in Hk'.
      rewrite lookup_insert_ne in Hk' by done.
      rewrite lookup_insert_ne in Hk' by lia.
      rewrite lookup_insert_ne in Hk' by lia.
      by rewrite lookup_empty in Hk'. }
    unfold s, Sample.axes_only in Hk'. simpl in Hk'.
    rewrite lookup_insert_eq in Hk'. injection Hk' as <-.
    rewrite lookup_singleton_eq in Hv'. injection Hv' as <-.
    intros [Hnz _]. by apply (Hnz false).
Defined.

Section PollFacts.
Variable deadzone : number.
Implicit Types (s : Store) (gp : Gamepad) (pads : list (option Gamepad)).

Lemma gamepad_changed_iff s gp :
  gamepad_changed s gp = true ↔
  truthy (timestamp gp) = true
  ∧ prevTimestamps s !! index gp ≠ Some (timestamp gp).
Proof.
  unfold gamepad_changed. rewrite andb_true_iff.
  destruct (truthy (timestamp gp)) eqn:Ht; [|split; intros [? _]; done].
  destruct (prevTimestamps s !! index gp) as [t|]; simpl.
  - unfold strict_neq. rewrite negb_true_iff, <- not_true_iff_false.
    rewrite (strict_eq_truthy_iff _ _ Ht). split.
    + intros [_ Hne]. split; [done|congruence].
    + intros [_ Hne]. split; [done|congruence].
  - split; intros _; done.
Qed.

(** Whether a device counts as changed only depends on the timestamp stored
    for its slot. *)
Lemma gamepad_changed_ext s s' gp gp' :
  prevTimestamps s' !! index gp' = prevTimestamps s !! index gp →
  timestamp gp' = timestamp gp →
  gamepad_changed s' gp' = gamepad_changed s gp.
Proof. intros H1 H2. unfold gamepad_changed. by rewrite H1, H2. Qed.

Lemma prevTimestamps_poll_gamepad_ne s gp k :
  index gp ≠ k →
  prevTimestamps (poll_gamepad deadzone s gp) !! k = prevTimestamps s !! k.
Proof.
  intros Hne. unfold poll_gamepad. destruct (gamepad_changed s gp); [|done].
  simpl. by rewrite lookup_insert_ne.
Qed.

(** Once polled, a device is not changed any more. *)
Lemma poll_gamepad_settles s gp :
  gamepad_changed (poll_gamepad deadzone s gp) gp = false.
Proof.
  destruct (gamepad_changed s gp) eqn:Hch.
  - rewrite (poll_gamepad_changed _ _ _ Hch).
    apply not_true_iff_false. rewrite gamepad_changed_iff. simpl.
    rewrite lookup_insert_eq. tauto.
  - by rewrite (poll_gamepad_unchanged _ _ _ Hch).
Qed.

Lemma prevTimestamps_poll_other s pads k :
  (∀ gp, Some gp ∈ pads → index gp ≠ k) →
  prevTimestamps (fold_left (poll_slot deadzone) pads s) !! k
  = prevTimestamps s !! k.
Proof.
  revert s. induction pads as [|[gp|] pads IH]; intros s Hk; simpl; [done|..].
  - rewrite IH by (intros gp' Hin; apply Hk; by right).
    apply prevTimestamps_poll_gamepad_ne. apply Hk. by left.
  - apply IH. intros gp' Hin. apply Hk. by right.
Qed.

(** A tick over a list of devices with pairwise different slots leaves no
    device of the list changed. *)
Lemma tick_settles_all s pads :
  (∀ i j g g', pads !! i = Some (Some g) → pads !! j = Some (Some g') →
               index g = index g' → i = j) →
  ∀ gp, Some gp ∈ pads →
    gamepad_changed (fold_left (poll_slot deadzone) pads s) gp = false.
Proof.
  revert s. induction pads as [|slot pads IH]; intros s Hd gp Hin.
  - by apply elem_of_nil in Hin.
  - assert (Hd' : ∀ i j g g', pads !! i = Some (Some g) →
                    pads !! j = Some (Some g') → index g = index g' → i = j).
    { intros i j g g' Hi Hj He.
      specialize (Hd (S i) (S j) g g' Hi Hj He). lia. }
    simpl. apply elem_of_cons in Hin as [<-|Hin]; [|by apply IH].
    simpl.
    rewrite <- (poll_gamepad_settles s gp).
    apply gamepad_changed_ext; [|done].
    apply prevTimestamps_poll_other.
    intros gp' Hin' He. apply list_elem_of_lookup in Hin' as [j Hj].
    specialize (Hd (S j) 0 gp' gp Hj eq_refl He). lia.
Qed.

Lemma tick_unchanged_noop s pads :
  (∀ gp, Some gp ∈ pads → gamepad_changed s gp = false) →
  fold_left (poll_slot deadzone) pads s = s.
Proof.
  induction pads as [|[gp|] pads IH]; intros Hun; simpl; [done|..].
  - rewrite poll_gamepad_unchanged by (apply Hun; by left).
    apply IH. intros gp' Hin. apply Hun. by right.
  - apply IH. intros gp' Hin. apply Hun. by right.
Qed.

Lemma host_indexed_distinct pads i j g g' :
  host_indexed pads →
  pads !! i = Some (Some g) → pads !! j = Some (Some g') →
  index g = index g' → i = j.
Proof. intros Hidx Hi Hj He. rewrite <- (Hidx i g Hi), <- (Hidx j g' Hj). done. Qed.

Lemma tick_twice_noop s pads pads' :
  host_indexed pads →
  same_stamps pads pads' →
  let s1 := checkGamepadInputs deadzone (Some pads) s in
  checkGamepadInputs deadzone (Some pads') s1 = s1.
Proof.
  intros Hidx Hsame s1. unfold checkGamepadInputs. simpl.
  apply tick_unchanged_noop. intros gp' Hin'.
  apply list_elem_of_lookup in Hin' as [i Hi].
  destruct (Forall2_lookup_r _ _ _ _ _ Hsame Hi) as (slot & Hslot & Hst).
  destruct slot as [gp|]; [|done]. destruct Hst as [Hix Hts].
  rewrite (gamepad_changed_ext s1 s1 gp gp'); [|by rewrite Hix|done].
  apply tick_settles_all.
  - intros ????. by apply host_indexed_distinct.
  - apply list_elem_of_lookup. eauto.
Qed.

End PollFacts.

(** C3. A poll tick treats a device as changed exactly when its timestamp is
    truthy and is not the timestamp stored for its slot; an unchanged device
    leaves the whole store as it is, a changed one gets its timestamp
    recorded.  So a second tick, over a host list that shows the devices of
    the first with the same timestamps (whatever their buttons and axes say
    now), changes nothing: the published button and axis states and the
    stored timestamps stay as the first tick left them. *)
Theorem poll_change_detection (deadzone : number) (s : Store) :
  (∀ gp, gamepad_changed s gp = true ↔
         truthy (timestamp gp) = true
         ∧ prevTimestamps s !! index gp ≠ Some (timestamp gp))
  ∧ (∀ gp, gamepad_changed s gp = false → poll_gamepad deadzone s gp = s)
  ∧ (∀ gp, gamepad_changed s gp = true →
       prevTimestamps (poll_gamepad deadzone s gp) !! index gp
       = Some (timestamp gp))
  ∧ (∀ pads pads',
       host_indexed pads →
       same_stamps pads pads' →
       let s1 := checkGamepadInputs deadzone (Some pads) s in
       let s2 := checkGamepadInputs deadzone (Some pads') s1 in
       buttonStates s2 = buttonStates s1
       ∧ axisStates s2 = axisStates s1
       ∧ s2 = s1).
Proof.
  split; [|split; [|split]].
  - intros gp. apply gamepad_changed_iff.
  - intros gp. apply poll_gamepad_unchanged.
  - intros gp Hch. rewrite (poll_gamepad_changed _ _ _ Hch). simpl.
    apply lookup_insert_eq.
  - intros pads pads' Hidx Hsame s1 s2.
    assert (s2 = s1) as -> by (by apply tick_twice_noop). done.
Qed.

Section SessionFacts.
Variable deadzone : number.
Implicit Types (s : Store) (gp : Gamepad) (pads : list (option Gamepad)).

Ltac slot_cases :=
  repeat split; intros; try done; eauto; try tauto.

Lemma tick_ind (P : Store → Prop) pads s :
  P s →
  (∀ s' gp, Some gp ∈ pads → P s' → P (poll_gamepad deadzone s' gp)) →
  P (fold_left (poll_slot deadzone) pads s).
Proof.
  revert s. induction pads as [|[gp|] pads IH]; intros s Hs Hstep; simpl.
  - done.
  - apply IH.
    + apply Hstep; [by left|done].
    + intros s' gp' Hin. apply Hstep. by right.
  - apply IH; [done|]. intros s' gp' Hin. apply Hstep. by right.
Qed.

Lemma gamepads_poll_gamepad s gp :
  gamepads (poll_gamepad deadzone s gp) = gamepads s.
Proof. unfold poll_gamepad. by destruct (gamepad_changed s gp). Qed.

Lemma isGamepadConnected_poll_gamepad s gp :
  isGamepadConnected (poll_gamepad deadzone s gp) = isGamepadConnected s.
Proof. unfold poll_gamepad. by destruct (gamepad_changed s gp). Qed.

Lemma gamepads_tick navigator s :
  gamepads (checkGamepadInputs deadzone navigator s) = gamepads s.
Proof.
  unfold checkGamepadInputs.
  apply (tick_ind (λ s', gamepads s' = gamepads s)); [done|].
  intros s' gp _ <-. apply gamepads_poll_gamepad.
Qed.

Lemma isGamepadConnected_tick navigator s :
  isGamepadConnected (checkGamepadInputs deadzone navigator s)
  = isGamepadConnected s.
Proof.
  unfold checkGamepadInputs.
  apply (tick_ind (λ s', isGamepadConnected s' = isGamepadConnected s));
    [done|].
  intros s' gp _ <-. apply isGamepadConnected_poll_gamepad.
Qed.

Lemma store_consistent_poll_gamepad s gp :
  store_consistent s → store_consistent (poll_gamepad deadzone s gp).
Proof.
  intros Hs. unfold poll_gamepad. destruct (gamepad_changed s gp); [|done].
  intros k. destruct (Hs k) as (H1 & H2 & H3). simpl.
  destruct (decide (index gp = k)) as [->|Hne].
  - rewrite !lookup_insert_eq. slot_cases.
  - rewrite !lookup_insert_ne by done. slot_cases.
Qed.

Lemma store_consistent_attach s gp :
  store_consistent s → store_consistent (handleGamepadConnected gp s).
Proof.
  intros Hs k. destruct (Hs k) as (H1 & H2 & H3). simpl.
  destruct (decide (index gp = k)) as [->|Hne].
  - rewrite !lookup_insert_eq. slot_cases.
  - rewrite !lookup_insert_ne by done. slot_cases.
Qed.

Lemma store_consistent_detach navigator s gp :
  store_consistent s →
  store_consistent (handleGamepadDisconnected navigator gp s).
Proof.
  intros Hs k. destruct (Hs k) as (H1 & H2 & H3). simpl.
  destruct (decide (index gp = k)) as [->|Hne].
  - rewrite !lookup_delete_eq. split; [done|]. split; intros []; done.
  - rewrite !lookup_delete_ne by done. slot_cases.
Qed.

(** The scan of the mount effect, as a function of the list. *)
Lemma scan_slots_spec pads (acc : gmap nat Gamepad * gmap nat number * bool) :
  let r := fold_left scan_slot pads acc in
  (∀ k, is_Some (acc.1.1 !! k) → is_Some (acc.1.2 !! k)) →
  (∀ k, is_Some (r.1.1 !! k) → is_Some (r.1.2 !! k))
  ∧ (∀ k, is_Some (acc.1.2 !! k) → is_Some (r.1.2 !! k))
  ∧ (r.2 = acc.2 || existsb (λ slot, bool_decide (slot ≠ None)) pads).
Proof.
  revert acc. induction pads as [|[gp|] pads IH]; intros [[cp cur] has]; simpl.
  - intros H. by rewrite orb_false_r.
  - intros H.
    destruct (IH (<[index gp := gp]> cp, <[index gp := zero]> cur, true))
      as (IH1 & IH2 & IH3).
    { simpl. intros k. destruct (decide (index gp = k)) as [->|Hne].
      - rewrite !lookup_insert_eq. eauto.
      - rewrite !lookup_insert_ne by done. apply H. }
    split; [exact IH1|]. split.
    + intros k Hk. apply IH2. simpl.
      destruct (decide (index gp = k)) as [->|Hne].
      * rewrite lookup_insert_eq. eauto.
      * by rewrite lookup_insert_ne.
    + rewrite IH3. simpl. by rewrite orb_true_r.
  - intros H. destruct (IH (cp, cur, has) H) as (IH1 & IH2 & IH3).
    split; [exact IH1|]. split; [exact IH2|]. exact IH3.
Qed.

Lemma store_consistent_initial : store_consistent initial_store.
Proof.
  intros k. simpl. rewrite !lookup_empty. split; [done|].
  split; intros []; done.
Qed.

Lemma store_consistent_mount navigator s :
  store_consistent s → store_consistent (mount navigator s).
Proof.
  intros Hs. unfold mount.
  pose proof (scan_slots_spec (getGamepads navigator)
                (∅, prevTimestamps s, false)) as Hscan.
  destruct (fold_left scan_slot (getGamepads navigator)
              (∅, prevTimestamps s, false)) as [[cp cur] has].
  simpl in Hscan. destruct Hscan as (H1 & H2 & _).
  { intros k. rewrite lookup_empty. by intros []. }
  assert (Hbase : ∀ k,
    (is_Some (buttonStates s !! k) ↔ is_Some (axisStates s !! k))
    ∧ (is_Some (buttonStates s !! k) → is_Some (cur !! k))).
  { intros k. destruct (Hs k) as (Ha & Hb & _). split; [done|].
    intros Hk. apply H2. by apply Hb. }
  destruct has; intros k; simpl; destruct (Hbase k) as [Ha Hb].
  - split; [done|]. split; [done|]. apply H1.
  - split; [done|]. split; [done|].
    intros Hk. apply H2. by apply (Hs k).
Qed.

Lemma buttonStates_mount navigator s :
  buttonStates (mount navigator s) = buttonStates s
  ∧ axisStates (mount navigator s) = axisStates s.
Proof.
  unfold mount.
  destruct (fold_left scan_slot (getGamepads navigator)
              (∅, prevTimestamps s, false)) as [[cp cur] []]; done.
Qed.

End SessionFacts.

Lemma poll_change_detection_witness :
  let pads := [Some (Sample.pad 0 (decimal false 12345 1) [Sample.half]);
               None;
               Some (Sample.pad 2 (decimal false 777 0) [])] in
  let pads' := [Some (Sample.pad 0 (decimal false 12345 1) [zero]);
                None;
                Some (Sample.pad 2 (decimal false 777 0) [Sample.half])] in
  let s1 := checkGamepadInputs Sample.default_deadzone (Some pads)
              initial_store in
  let s2 := checkGamepadInputs Sample.default_deadzone (Some pads') s1 in
  buttonStates s2 = buttonStates s1 ∧ axisStates s2 = axisStates s1 ∧ s2 = s1.
Proof.
  intros pads pads'.
  destruct (poll_change_detection Sample.default_deadzone initial_store)
    as (_ & _ & _ & H).
  apply (H pads pads').
  - intros i gp Hi. destruct i as [|[|[|i]]]; simpl in Hi; by simplify_eq.
  - repeat constructor.
Defined.

Section HookFacts.
Implicit Types (s : Store) (gp : Gamepad) (pads : list (option Gamepad)).

(** A session with one run of the effect is a session of the hook. *)
Lemma reachable_hook_reachable deadzone allowed relisting s :
  reachable deadzone allowed s →
  hook_reachable allowed relisting deadzone s.
Proof.
  induction 1 as [navigator|s ev _ IH Hal].
  - apply hook_mount.
  - by apply hook_step.
Qed.

Lemma hook_reachable_consistent allowed relisting deadzone s :
  hook_reachable allowed relisting deadzone s → store_consistent s.
Proof.
  induction 1 as [deadzone navigator|deadzone s ev _ IH _
                 |deadzone deadzone' s navigator _ IH _].
  - apply store_consistent_mount, store_consistent_initial.
  - destruct ev as [gp|navigator gp|navigator]; simpl.
    + by apply store_consistent_attach.
    + by apply store_consistent_detach.
    + unfold checkGamepadInputs. apply tick_ind; [done|].
      intros s' gp _. apply store_consistent_poll_gamepad.
  - by apply store_consistent_mount.
Qed.

Lemma scan_nothing_listed pads
    (acc : gmap nat Gamepad * gmap nat number * bool) :
  (∀ gp, Some gp ∉ pads) → fold_left scan_slot pads acc = acc.
Proof.
  induction pads as [|[gp|] pads IH]; intros Hno; simpl; [done|..].
  - destruct (Hno gp). by left.
  - apply IH. intros gp Hin. apply (Hno gp). by right.
Qed.

Lemma mount_nothing_listed navigator s :
  (∀ gp, Some gp ∉ getGamepads navigator) → mount navigator s = s.
Proof.
  intros Hno. unfold mount. rewrite scan_nothing_listed by done.
  by destruct s.
Qed.

Lemma scan_keeps pads (acc : gmap nat Gamepad * gmap nat number * bool) k :
  let r := fold_left scan_slot pads acc in
  (is_Some (acc.1.1 !! k) → is_Some (r.1.1 !! k))
  ∧ (acc.2 = true → r.2 = true).
Proof.
  revert acc. induction pads as [|[gp|] pads IH]; intros [[cp cur] has]; simpl.
  - done.
  - destruct (IH (<[index gp := gp]> cp, <[index gp := zero]> cur, true))
      as [IH1 IH2]. simpl in *. split; [|by intros _; apply IH2].
    intros Hk. apply IH1. rewrite lookup_insert_is_Some.
    destruct (decide (index gp = k)); [by left|by right].
  - apply (IH (cp, cur, has)).
Qed.

Lemma scan_lists pads (acc : gmap nat Gamepad * gmap nat number * bool) gp :
  Some gp ∈ pads →
  let r := fold_left scan_slot pads acc in
  is_Some (r.1.1 !! index gp) ∧ r.2 = true.
Proof.
  revert acc. induction pads as [|slot pads IH]; intros [[cp cur] has] Hin.
  - by apply elem_of_nil in Hin.
  - apply elem_of_cons in Hin as [<-|Hin].
    + simpl.
      destruct (scan_keeps pads
                  (<[index gp := gp]> cp, <[index gp := zero]> cur, true)
                  (index gp)) as [H1 H2]. simpl in *.
      split; [|by apply H2]. apply H1. rewrite lookup_insert_eq. eauto.
    + simpl. by apply IH.
Qed.

Lemma mount_lists_devices navigator s gp :
  Some gp ∈ getGamepads navigator →
  is_Some (gamepads (mount navigator s) !! index gp).
Proof.
  intros Hin. unfold mount.
  pose proof (scan_lists (getGamepads navigator)
                (∅, prevTimestamps s, false) gp Hin) as Hscan.
  destruct (fold_left scan_slot (getGamepads navigator)
              (∅, prevTimestamps s, false)) as [[cp cur] has].
  simpl in Hscan. destruct Hscan as [Hk ->]. done.
Qed.

Lemma state_has_device_mount navigator s :
  relisted s navigator →
  state_has_device s → state_has_device (mount navigator s).
Proof.
  intros [Hno|Hall] Hs.
  - by rewrite mount_nothing_listed.
  - intros k. destruct (buttonStates_mount navigator s) as [-> ->].
    intros Hk. destruct (Hall k Hk) as (gp & Hin & <-).
    by apply mount_lists_devices.
Qed.

Lemma hook_reachable_has_device deadzone s :
  hook_reachable announced relisted deadzone s → state_has_device s.
Proof.
  induction 1 as [deadzone navigator|deadzone s ev _ IH Hal
                 |deadzone deadzone' s navigator _ IH Hre].
  - intros k. destruct (buttonStates_mount navigator initial_store) as [-> ->].
    simpl. rewrite !lookup_empty. intros [[]|[]]; done.
  - destruct ev as [gp|navigator gp|navigator]; simpl.
    + intros k. simpl. destruct (decide (index gp = k)) as [->|Hne].
      * rewrite lookup_insert_eq. eauto.
      * rewrite lookup_insert_ne by done. apply IH.
    + intros k. simpl. destruct (decide (index gp = k)) as [->|Hne].
      * rewrite !lookup_delete_eq. intros [[]|[]]; done.
      * rewrite !lookup_delete_ne by done. apply IH.
    + simpl in Hal. unfold checkGamepadInputs.
      apply (tick_ind deadzone
               (λ s', gamepads s' = gamepads s ∧ state_has_device s'));
        [done|].
      intros s' gp Hin [Hg Hs']. rewrite gamepads_poll_gamepad.
      split; [done|]. intros k. unfold poll_gamepad.
      destruct (gamepad_changed s' gp); [|apply Hs']. simpl.
      destruct (decide (index gp = k)) as [<-|Hne].
      * intros _. rewrite Hg. by apply Hal.
      * rewrite !lookup_insert_ne by done. apply Hs'.
  - by apply state_has_device_mount.
Qed.

End HookFacts.

(** C4 (counterexample). A tick that sees a device the session was never told
    about publishes button and axis state for its slot, while the device set
    has no entry for it. *)
Lemma device_set_sync_counterexample :
  let s := step Sample.default_deadzone (mount (Some []) initial_store)
             (Tick (Some [Some (Sample.pad 0 (decimal false 12345 1)
                                  [Sample.half])])) in
  reachable Sample.default_deadzone any_event s
  ∧ is_Some (buttonStates s !! 0)
  ∧ is_Some (axisStates s !! 0)
  ∧ gamepads s !! 0 = None.
Proof.
  intros s. split; [|split; [|split]].
  - apply reach_step; [apply reach_mount|exact I].
  - vm_compute. eauto.
  - vm_compute. eauto.
  - vm_compute. reflexivity.
Qed.

(** C4 (amended). In every store the hook reaches, the effect running again
    on the store as it is whenever the options change, button and axis state
    are published for the same slots, and a slot with published state or
    with a device entry has a stored timestamp.  Published state exists only
    for slots of the device set when every tick so far only saw devices that
    had a device entry and every later run of the effect saw no device at all
    or a device for every slot with published state.  The detach handler
    removes the device entry, the button state, the axis state and the stored
    timestamp of the slot together and leaves the entries of every other slot
    alone; for a slot with none of the four it leaves the four mappings as
    they are. *)
Theorem detach_removes_slot :
  (∀ deadzone s,
     hook_reachable any_event any_list deadzone s → store_consistent s)
  ∧ (∀ deadzone s,
       hook_reachable announced relisted deadzone s → state_has_device s)
  ∧ (∀ navigator gp s,
       let s' := handleGamepadDisconnected navigator gp s in
       (gamepads s' !! index gp = None
        ∧ buttonStates s' !! index gp = None
        ∧ axisStates s' !! index gp = None
        ∧ prevTimestamps s' !! index gp = None)
       ∧ (∀ k, k ≠ index gp →
            gamepads s' !! k = gamepads s !! k
            ∧ buttonStates s' !! k = buttonStates s !! k
            ∧ axisStates s' !! k = axisStates s !! k
            ∧ prevTimestamps s' !! k = prevTimestamps s !! k))
  ∧ (∀ navigator gp s,
       gamepads s !! index gp = None →
       buttonStates s !! index gp = None →
       axisStates s !! index gp = None →
       prevTimestamps s !! index gp = None →
       let s' := handleGamepadDisconnected navigator gp s in
       gamepads s' = gamepads s
       ∧ buttonStates s' = buttonStates s
       ∧ axisStates s' = axisStates s
       ∧ prevTimestamps s' = prevTimestamps s).
Proof.
  split; [|split; [|split]].
  - intros deadzone s. apply hook_reachable_consistent.
  - intros deadzone s. apply hook_reachable_has_device.
  - intros navigator gp s s'. subst s'. simpl. split.
    + rewrite !lookup_delete_eq. done.
    + intros k Hk. rewrite !lookup_delete_ne by done. done.
  - intros navigator gp s Hg Hb Ha Ht s'. subst s'. simpl.
    rewrite !delete_id by done. done.
Qed.

Lemma detach_removes_slot_witness :
  let p1 := Sample.pad 1 (decimal false 12345 1) [Sample.half] in
  let s0 := checkGamepadInputs Sample.default_deadzone (Some [None; Some p1])
              (handleGamepadConnected p1 (mount None initial_store)) in
  let s := mount (Some [None; Some p1]) s0 in
  let gp := Sample.pad 3 (decimal false 12345 1) [Sample.half] in
  let s' := handleGamepadDisconnected (Some [None; Some p1]) gp s in
  store_consistent s
  ∧ state_has_device s
  ∧ gamepads s' = gamepads s
  ∧ buttonStates s' = buttonStates s
  ∧ axisStates s' = axisStates s
  ∧ prevTimestamps s' = prevTimestamps s.
Proof.
  intros p1 s0 s gp.
  destruct detach_removes_slot as (H1 & H2 & _ & H4).
  assert (Hs0 : hook_reachable announced relisted Sample.default_deadzone s0).
  { apply (hook_step _ _ _ _ (Tick (Some [None; Some p1]))).
    - apply (hook_step _ _ _ _ (Attach p1)); [apply hook_mount|exact I].
    - intros g Hin. simpl in Hin.
      apply elem_of_cons in Hin as [Hin|Hin]; [done|].
      apply elem_of_cons in Hin as [[= ->]|Hin]; [by vm_compute; eauto|].
      by apply elem_of_nil in Hin. }
  assert (Hs : hook_reachable announced relisted Sample.half s).
  { apply (hook_rerun _ _ Sample.default_deadzone); [exact Hs0|].
    right. intros k Hk. exists p1. split; [by right; left|].
    apply (H2 _ _ Hs0) in Hk. unfold s0 in Hk.
    rewrite gamepads_tick in Hk. simpl in Hk.
    apply lookup_insert_is_Some in Hk as [Hk|[_ Hk]]; [done|].
    rewrite lookup_empty in Hk. by destruct Hk. }
  split; [|split].
  - apply (H1 Sample.half).
    apply (hook_rerun _ _ Sample.default_deadzone _ s0); [|exact I].
    apply (hook_step _ _ _ _ (Tick (Some [None; Some p1]))); [|exact I].
    apply (hook_step _ _ _ _ (Attach p1)); [apply hook_mount|exact I].
  - exact (H2 _ _ Hs).
  - apply (H4 (Some [None; Some p1]) gp s); vm_compute; reflexivity.
Defined.

Lemma isButtonPressed_true_iff s b :
  isButtonPressed s b = true ↔
  ∃ k pb st, buttonStates s !! k = Some pb ∧ pb !! b = Some st
             ∧ pressed st = true.
Proof.
  unfold isButtonPressed. rewrite existsb_exists. split.
  - intros (pb & Hin & Hp). apply list_elem_of_In, elem_of_object_values in Hin
      as [k Hk]. unfold button_pressed in Hp.
    destruct (pb !! b) as [st|] eqn:Hst; [|done]. eauto 6.
  - intros (k & pb & st & Hk & Hst & Hp). exists pb. split.
    + apply list_elem_of_In, elem_of_object_values. eauto.
    + unfold button_pressed. by rewrite Hst.
Qed.

(** C5. A query for a slot, a button index or an axis index that is not
    there answers [false] (the button queries) or 0 (the axis queries); in
    the store of a session with no device, [isGamepadConnected] is false,
    [isButtonPressed(0)] is false and [getAxisValue(0)] is 0. *)
Theorem queries_on_missing_entries (deadzone : number) (s : Store) :
  (∀ g b,
     buttonStates s !! g = None
     ∨ (∃ pb, buttonStates s !! g = Some pb ∧ pb !! b = None) →
     isButtonPressedOnGamepad s g b = false)
  ∧ (∀ g a,
       axisStates s !! g = None
       ∨ (∃ pad, axisStates s !! g = Some pad ∧ pad !! a = None) →
       getAxisValueForGamepad s g a = zero)
  ∧ (∀ b,
       (∀ g pb, buttonStates s !! g = Some pb → pb !! b = None) →
       isButtonPressed s b = false)
  ∧ (∀ a,
       (∀ g pad, axisStates s !! g = Some pad → pad !! a = None) →
       getAxisValue deadzone s a = zero)
  ∧ (let s0 := mount (Some []) initial_store in
     isGamepadConnected s0 = false
     ∧ isButtonPressed s0 0 = false
     ∧ getAxisValue deadzone s0 0 = zero).
Proof.
  split; [|split; [|split; [|split]]].
  - intros g b [Hg|(pb & Hg & Hb)]; unfold isButtonPressedOnGamepad;
      rewrite Hg; [done|]. unfold button_pressed. by rewrite Hb.
  - intros g a [Hg|(pad & Hg & Ha)]; unfold getAxisValueForGamepad;
      rewrite Hg; simpl; [done|]. by rewrite Ha.
  - intros b Hno. apply not_true_iff_false. rewrite isButtonPressed_true_iff.
    intros (k & pb & st & Hk & Hst & _). rewrite (Hno _ _ Hk) in Hst. done.
  - intros a Hno. apply getAxisValue_none.
    intros k pad v Hk Hv. rewrite (Hno _ _ Hk) in Hv. done.
  - simpl. split; [done|]. split.
    + unfold isButtonPressed, object_values. simpl.
      by rewrite object_entries_empty.
    + unfold getAxisValue. simpl. by rewrite object_entries_empty.
Qed.

Lemma queries_on_missing_entries_witness :
  let s := checkGamepadInputs Sample.default_deadzone
             (Some [Some (Sample.pad 0 (decimal false 12345 1) [Sample.half])])
             initial_store in
  isButtonPressedOnGamepad s 4 0 = false
  ∧ isButtonPressedOnGamepad s 0 9 = false
  ∧ getAxisValueForGamepad s 4 0 = zero
  ∧ getAxisValueForGamepad s 0 9 = zero.
Proof.
  intros s.
  destruct (queries_on_missing_entries Sample.default_deadzone s)
    as (Hb & Ha & _).
  split; [|split; [|split]].
  - apply Hb. left. vm_compute. reflexivity.
  - apply Hb. right. eexists. split; vm_compute; reflexivity.
  - apply Ha. left. vm_compute. reflexivity.
  - apply Ha. right. eexists. split; vm_compute; reflexivity.
Defined.

Lemma mount_no_devices pads s :
  existsb (λ slot : option Gamepad, bool_decide (slot ≠ None)) pads = false →
  mount (Some pads) s = s.
Proof.
  intros Hno. unfold mount. simpl.
  assert (Hfold : ∀ acc, fold_left scan_slot pads acc = acc).
  { induction pads as [|[gp|] pads IH]; intros acc; simpl in *; [done|done|].
    by apply IH. }
  rewrite Hfold. by destruct s.
Qed.

(** C6. Without [navigator.getGamepads] the poll tick and the scan of the
    mount effect see no device: both leave the store as it is (no device
    entry, no published state, no stored timestamp, the connected flag
    untouched), exactly as with an empty host list; the detach handler then
    behaves as with an empty host list too. *)
Theorem host_without_query (deadzone : number) (s : Store) (gp : Gamepad) :
  checkGamepadInputs deadzone None s = s
  ∧ checkGamepadInputs deadzone None s = checkGamepadInputs deadzone (Some []) s
  ∧ mount None s = s
  ∧ mount None s = mount (Some []) s
  ∧ mount None initial_store = initial_store
  ∧ handleGamepadDisconnected None gp s
    = handleGamepadDisconnected (Some []) gp s
  ∧ isGamepadConnected (handleGamepadDisconnected None gp s) = false.
Proof.
  assert (Hm : mount None s = s) by (by destruct s).
  repeat split; try done.
Qed.

Section SlotFacts.
Variable deadzone : number.
Implicit Types (s : Store) (gp : Gamepad) (pads : list (option Gamepad)).

Lemma host_indexed_distinct_slots pads :
  host_indexed pads → distinct_slots pads.
Proof. intros Hidx i j g g'. by apply host_indexed_distinct. Qed.

Lemma distinct_slots_tail slot pads :
  distinct_slots (slot :: pads) → distinct_slots pads.
Proof.
  intros Hd i j g g' Hi Hj He.
  specialize (Hd (S i) (S j) g g' Hi Hj He). lia.
Qed.

Lemma slot_view_poll_gamepad_ne s gp k :
  index gp ≠ k → slot_view (poll_gamepad deadzone s gp) k = slot_view s k.
Proof.
  intros Hne. unfold poll_gamepad. destruct (gamepad_changed s gp); [|done].
  unfold slot_view. simpl. by rewrite !lookup_insert_ne.
Qed.

Lemma slot_view_tick_other s pads k :
  (∀ gp, Some gp ∈ pads → index gp ≠ k) →
  slot_view (fold_left (poll_slot deadzone) pads s) k = slot_view s k.
Proof.
  intros Hk.
  apply (tick_ind deadzone (λ s', slot_view s' k = slot_view s k)); [done|].
  intros s' gp Hin <-. apply slot_view_poll_gamepad_ne. by apply Hk.
Qed.

Lemma slot_view_poll_gamepad_ext s1 s2 gp :
  slot_view s1 (index gp) = slot_view s2 (index gp) →
  slot_view (poll_gamepad deadzone s1 gp) (index gp)
  = slot_view (poll_gamepad deadzone s2 gp) (index gp).
Proof.
  intros Hv. unfold poll_gamepad.
  rewrite (gamepad_changed_ext s2 s1 gp gp); [|by injection Hv|done].
  destruct (gamepad_changed s2 gp); [|done].
  unfold slot_view. simpl. by rewrite !lookup_insert_eq.
Qed.

(** Over a list with pairwise different slots, what a tick does to the slot
    of a device of the list is what polling that device alone does. *)
Lemma tick_slot_view pads s i gp :
  distinct_slots pads →
  pads !! i = Some (Some gp) →
  slot_view (fold_left (poll_slot deadzone) pads s) (index gp)
  = slot_view (poll_gamepad deadzone s gp) (index gp).
Proof.
  revert s i. induction pads as [|slot pads IH]; intros s i Hd Hi; [done|].
  pose proof (distinct_slots_tail _ _ Hd) as Hd'.
  destruct i as [|i]; simpl in Hi.
  - injection Hi as ->. simpl. apply slot_view_tick_other.
    intros gp' Hin He. apply list_elem_of_lookup in Hin as [j Hj].
    specialize (Hd (S j) 0 gp' gp Hj eq_refl He). lia.
  - simpl. rewrite (IH _ i Hd' Hi). destruct slot as [g0|]; [|done]. simpl.
    apply slot_view_poll_gamepad_ext, slot_view_poll_gamepad_ne.
    intros He. specialize (Hd 0 (S i) g0 gp eq_refl Hi He). lia.
Qed.

End SlotFacts.



(** C7. When the poll finds a device changed it records the device's
    timestamp and publishes, for the device's slot, button and axis state
    computed from the device alone: the new entries hold exactly the indices
    of the device's button and axis lists, whatever the slot held before.
    The entries of every other slot, the device set and the connected flag
    are left as they were. *)
Theorem poll_publishes_slot (deadzone : number) (s : Store) (gp : Gamepad) :
  gamepad_changed s gp = true →
  let s' := poll_gamepad deadzone s gp in
  prevTimestamps s' !! index gp = Some (timestamp gp)
  ∧ buttonStates s' !! index gp = Some (padButtons gp)
  ∧ axisStates s' !! index gp = Some (padAxes deadzone gp)
  ∧ (∀ j, padButtons gp !! j = button_state <$> buttons gp !! j)
  ∧ (∀ j, padAxes deadzone gp !! j = normalize_axis deadzone <$> axes gp !! j)
  ∧ (∀ k, k ≠ index gp →
       prevTimestamps s' !! k = prevTimestamps s !! k
       ∧ buttonStates s' !! k = buttonStates s !! k
       ∧ axisStates s' !! k = axisStates s !! k)
  ∧ gamepads s' = gamepads s
  ∧ isGamepadConnected s' = isGamepadConnected s.
Proof.
  intros Hch s'. subst s'. rewrite (poll_gamepad_changed _ _ _ Hch). simpl.
  rewrite !lookup_insert_eq.
  split; [done|]. split; [done|]. split; [done|].
  split; [apply padButtons_lookup|]. split; [apply padAxes_lookup|].
  split; [|done]. intros k Hk. rewrite !lookup_insert_ne by done. done.
Qed.

Lemma poll_publishes_slot_witness :
  let gp := Sample.pad 1 (decimal false 12345 1) [Sample.half] in
  let old := Sample.pad 1 (decimal false 5 0) [zero; zero; zero] in
  let s := poll_gamepad Sample.default_deadzone
             (handleGamepadConnected old initial_store) old in
  let s' := poll_gamepad Sample.default_deadzone s gp in
  prevTimestamps s' !! 1 = Some (decimal false 12345 1)
  ∧ buttonStates s' !! 1 = Some (padButtons gp)
  ∧ axisStates s' !! 1 = Some (padAxes Sample.default_deadzone gp)
  ∧ (∀ j, padButtons gp !! j = button_state <$> buttons gp !! j)
  ∧ (∀ j, padAxes Sample.default_deadzone gp !! j
          = normalize_axis Sample.default_deadzone <$> axes gp !! j)
  ∧ (∀ k, k ≠ 1 →
       prevTimestamps s' !! k = prevTimestamps s !! k
       ∧ buttonStates s' !! k = buttonStates s !! k
       ∧ axisStates s' !! k = axisStates s !! k)
  ∧ gamepads s' = gamepads s
  ∧ isGamepadConnected s' = isGamepadConnected s.
Proof.
  intros gp old s.
  apply (poll_publishes_slot Sample.default_deadzone s gp).
  vm_compute. reflexivity.
Defined.

(** C8 (counterexample). A device whose timestamp is 0 is attached and then
    polled: the tick does not treat it as changed and publishes nothing. *)
Lemma attach_then_poll_counterexample :
  let gp := Sample.pad 0 zero [Sample.half] in
  let s1 := handleGamepadConnected gp initial_store in
  let s2 := checkGamepadInputs Sample.default_deadzone (Some [Some gp]) s1 in
  gamepad_changed s1 gp = false
  ∧ buttonStates s2 !! 0 = None
  ∧ axisStates s2 !! 0 = None
  ∧ s2 = s1.
Proof. vm_compute. repeat split; reflexivity. Qed.

(** C8 (amended). The attach handler writes the device at its slot of the
    device set (over whatever was there), stores the timestamp 0 for the slot
    and sets the connected flag; other slots and the published state are left
    alone.  The next poll tick then treats the device as changed, records its
    timestamp and publishes its state, whenever the host list shows it at its
    slot with a truthy timestamp (not 0, not NaN). *)
Theorem attach_then_poll (deadzone : number) (s : Store) (gp gp' : Gamepad)
    (pads : list (option Gamepad)) :
  let s1 := handleGamepadConnected gp s in
  (gamepads s1 !! index gp = Some gp
   ∧ prevTimestamps s1 !! index gp = Some zero
   ∧ isGamepadConnected s1 = true
   ∧ buttonStates s1 = buttonStates s
   ∧ axisStates s1 = axisStates s
   ∧ ∀ k, k ≠ index gp →
       gamepads s1 !! k = gamepads s !! k
       ∧ prevTimestamps s1 !! k = prevTimestamps s !! k)
  ∧ (truthy (timestamp gp') = true → index gp' = index gp →
     gamepad_changed s1 gp' = true)
  ∧ (host_indexed pads →
     pads !! index gp = Some (Some gp') →
     truthy (timestamp gp') = true →
     let s2 := checkGamepadInputs deadzone (Some pads) s1 in
     prevTimestamps s2 !! index gp = Some (timestamp gp')
     ∧ buttonStates s2 !! index gp = Some (padButtons gp')
     ∧ axisStates s2 !! index gp = Some (padAxes deadzone gp')).
Proof.
  intros s1. subst s1. split; [|split].
  - simpl. rewrite !lookup_insert_eq. repeat split; try done;
      by rewrite lookup_insert_ne.
  - intros Ht Hix. apply gamepad_changed_iff. split; [done|].
    simpl. rewrite Hix, lookup_insert_eq. intros [= Hz].
    rewrite <- Hz in Ht. done.
  - intros Hidx Hin Ht s2. subst s2.
    assert (Hix : index gp' = index gp) by (by apply Hidx).
    pose proof (tick_slot_view deadzone pads (handleGamepadConnected gp s)
                  (index gp) gp' (host_indexed_distinct_slots _ Hidx) Hin)
      as Hview.
    rewrite Hix in Hview. unfold slot_view in Hview.
    rewrite poll_gamepad_changed in Hview.
    + simpl in Hview. rewrite Hix, !lookup_insert_eq in Hview.
      unfold checkGamepadInputs. simpl. by simplify_eq.
    + apply gamepad_changed_iff. split; [done|].
      simpl. rewrite Hix, lookup_insert_eq. intros [= Hz].
      rewrite <- Hz in Ht. done.
Qed.

Lemma attach_then_poll_witness :
  let gp := Sample.pad 1 zero [] in
  let gp' := Sample.pad 1 (decimal false 12345 1) [Sample.half] in
  let s1 := handleGamepadConnected gp initial_store in
  let s2 := checkGamepadInputs Sample.default_deadzone
              (Some [None; Some gp']) s1 in
  gamepad_changed s1 gp' = true
  ∧ prevTimestamps s2 !! 1 = Some (decimal false 12345 1)
  ∧ buttonStates s2 !! 1 = Some (padButtons gp')
  ∧ axisStates s2 !! 1 = Some (padAxes Sample.default_deadzone gp').
Proof.
  intros gp gp'.
  destruct (attach_then_poll Sample.default_deadzone initial_store gp gp'
              [None; Some gp']) as (_ & Hch & Htick).
  split.
  - apply Hch; reflexivity.
  - apply Htick.
    + intros i g Hi. destruct i as [|[|i]]; simpl in Hi; by simplify_eq.
    + reflexivity.
    + reflexivity.
Defined.

(** C9. After a detach the connected flag says whether the host list, as it
    is when the handler runs, has a slot that is not [null]; the store plays
    no part in it, and without [navigator.getGamepads] the flag is false. *)
Theorem detach_rescans_host (s : Store) (gp : Gamepad) :
  (∀ pads,
     isGamepadConnected (handleGamepadDisconnected (Some pads) gp s) = true
     ↔ ∃ i g, pads !! i = Some (Some g))
  ∧ (∀ navigator s',
       isGamepadConnected (handleGamepadDisconnected navigator gp s)
       = isGamepadConnected (handleGamepadDisconnected navigator gp s'))
  ∧ isGamepadConnected (handleGamepadDisconnected None gp s) = false.
Proof.
  split; [|split]; [|done|done].
  intros pads. simpl. rewrite existsb_exists. split.
  - intros (slot & Hin & Hs). apply bool_decide_eq_true in Hs.
    destruct slot as [g|]; [|done].
    apply list_elem_of_In, list_elem_of_lookup in Hin as [i Hi]. eauto.
  - intros (i & g & Hi). exists (Some g). split.
    + apply list_elem_of_In, list_elem_of_lookup. eauto.
    + by apply bool_decide_eq_true.
Qed.

(** C10. With the deadzone 0.1 a raw axis value 0.10004 is above the deadzone
    and is stored rounded, as 0.1; [getAxisValueForGamepad] returns the
    stored 0.1, while [getAxisValue], which tests the stored value against
    the deadzone again, returns 0 for the same axis. *)
Theorem axis_queries_disagree :
  let deadzone := Sample.default_deadzone in
  let raw := decimal false 10004 5 in
  let gp := Sample.pad 0 (decimal false 12345 1) [raw] in
  let s := checkGamepadInputs deadzone (Some [Some gp])
             (handleGamepadConnected gp initial_store) in
  gt (abs raw) deadzone = true
  ∧ normalize_axis deadzone raw = decimal false 1 1
  ∧ axisStates s !! 0 ≫= (λ pad, pad !! 0) = Some (decimal false 1 1)
  ∧ getAxisValueForGamepad s 0 0 = decimal false 1 1
  ∧ truthy (decimal false 1 1) = true
  ∧ gt (abs (decimal false 1 1)) deadzone = false
  ∧ getAxisValue deadzone s 0 = zero.
Proof. vm_compute. repeat split; reflexivity. Qed.

Section RoundingFacts.

Lemma shr_1_nonneg mrs : (0 ≤ shr_m mrs)%Z → (0 ≤ shr_m (shr_1 mrs))%Z.
Proof. destruct mrs as [[|[p|p|]|p] r t]; simpl; lia. Qed.

Lemma iter_pos_shr_1_nonneg p mrs :
  (0 ≤ shr_m mrs)%Z → (0 ≤ shr_m (SpecFloat.iter_pos shr_1 p mrs))%Z.
Proof.
  revert mrs. induction p as [p IH|p IH|]; intros mrs H; simpl.
  - apply IH, IH. by apply shr_1_nonneg.
  - by apply IH, IH.
  - by apply shr_1_nonneg.
Qed.

Lemma shr_fexp_nonneg m e l :
  (0 ≤ m)%Z → (0 ≤ shr_m (shr_fexp prec emax m e l).1)%Z.
Proof.
  intros Hm. unfold shr_fexp, shr.
  assert (H0 : (0 ≤ shr_m (shr_record_of_loc m l))%Z)
    by (by destruct l as [|[]]).
  destruct (fexp prec emax (Zdigits2 m + e) - e)%Z; simpl; try done.
  by apply iter_pos_shr_1_nonneg.
Qed.

Lemma round_nearest_even_nonneg m l :
  (0 ≤ m)%Z → (0 ≤ round_nearest_even m l)%Z.
Proof.
  intros Hm. destruct l as [|[]]; simpl; try lia.
  destruct (Z.even m); lia.
Qed.

Lemma binary_round_aux_not_nan sx mx ex lx :
  (0 ≤ mx)%Z → binary_round_aux prec emax sx mx ex lx ≠ S754_nan.
Proof.
  intros Hm. unfold binary_round_aux.
  pose proof (shr_fexp_nonneg mx ex lx Hm) as H1.
  destruct (shr_fexp prec emax mx ex lx) as [mrs' e']. simpl in H1.
  pose proof (shr_fexp_nonneg
                (round_nearest_even (shr_m mrs') (loc_of_shr_record mrs'))
                e' loc_Exact (round_nearest_even_nonneg _ _ H1)) as H2.
  destruct (shr_fexp prec emax _ e' loc_Exact) as [mrs'' e'']. simpl in H2.
  destruct (shr_m mrs''); [done| |lia].
  by destruct (e'' <=? emax - prec)%Z.
Qed.

Lemma div_eucl_quotient_nonneg a b :
  (0 ≤ a)%Z → (0 < b)%Z → (0 ≤ (Z.div_eucl a b).1)%Z.
Proof.
  intros Ha Hb. pose proof (Z.div_pos a b Ha Hb) as Hq.
  unfold Z.div in Hq. by destruct (Z.div_eucl a b).
Qed.

Lemma decimal_not_nan neg n f : decimal neg n f ≠ S754_nan.
Proof.
  destruct n as [|p]; [done|]. unfold decimal, SFdiv.
  destruct (SFdiv_core_binary prec emax (Z.pos p) 0
              (Z.pos (Z.to_pos (10 ^ Z.of_nat f))) 0) as [[mz ez] lz] eqn:Hd.
  apply binary_round_aux_not_nan.
  unfold SFdiv_core_binary in Hd.
  set (m' := match _ with Z.pos _ => _ | _ => _ end) in Hd.
  assert (Hm' : (0 ≤ m')%Z).
  { unfold m'. destruct (_ - _ - _)%Z; [lia| |lia].
    apply Z.shiftl_nonneg. lia. }
  pose proof (div_eucl_quotient_nonneg m'
                (Z.pos (Z.to_pos (10 ^ Z.of_nat f))) Hm' (Pos2Z.is_pos _))
    as Hq.
  destruct (Z.div_eucl m' _) as [q r]. injection Hd as <- _ _. exact Hq.
Qed.

Lemma parseFloat_toFixed_not_nan v f :
  v ≠ S754_nan → parseFloat (toFixed v f) ≠ S754_nan.
Proof.
  destruct v as [s|s| |s m e]; intros Hv; [done..|]. unfold toFixed.
  destruct (SFleb _ _); [done|]. apply decimal_not_nan.
Qed.

End RoundingFacts.

Lemma normalize_axis_not_nan deadzone v : normalize_axis deadzone v ≠ S754_nan.
Proof.
  unfold normalize_axis. destruct (gt (abs v) deadzone) eqn:Hgt; [|done].
  apply parseFloat_toFixed_not_nan. by eapply gt_abs_not_nan.
Qed.

Lemma isButtonPressedOnGamepad_true_iff s g b :
  isButtonPressedOnGamepad s g b = true ↔
  ∃ pb st, buttonStates s !! g = Some pb ∧ pb !! b = Some st
           ∧ pressed st = true.
Proof.
  unfold isButtonPressedOnGamepad, button_pressed. split.
  - destruct (buttonStates s !! g) as [pb|]; [|done].
    destruct (pb !! b) as [st|] eqn:Hst; [|done]. rewrite orb_false_r.
    intros Hp. exists pb, st. auto.
  - intros (pb & st & -> & -> & ->). done.
Qed.

(** X1. A button is pressed on some device exactly when it is pressed on a
    device of some slot: the query over all devices is the disjunction, over
    the slots, of the query for one device. *)
Theorem isButtonPressed_some_gamepad (s : Store) (b : nat) :
  isButtonPressed s b = true ↔ ∃ g, isButtonPressedOnGamepad s g b = true.
Proof.
  rewrite isButtonPressed_true_iff. split.
  - intros (k & pb & st & H). exists k.
    apply isButtonPressedOnGamepad_true_iff. eauto.
  - intros (g & H). apply isButtonPressedOnGamepad_true_iff in H.
    destruct H as (pb & st & H). eauto.
Qed.

Lemma getAxisValue_loop_cases deadzone a (pads : list (nat * gmap nat number)) :
  getAxisValue_loop deadzone a pads = zero
  ∨ ∃ k pad v, (k, pad) ∈ pads ∧ pad !! a = Some v
               ∧ axis_counts deadzone (Some v) = true
               ∧ getAxisValue_loop deadzone a pads = v.
Proof.
  induction pads as [|[k0 p0] rest IH]; [by left|]. simpl.
  destruct (axis_counts deadzone (p0 !! a)) eqn:Hc.
  - destruct (p0 !! a) as [v|] eqn:Hv; [|done]. right.
    exists k0, p0, v. split; [left|]. done.
  - destruct IH as [IH|(k & pad & v & Hin & IH)]; [by left|right].
    exists k, pad, v. split; [by right|done].
Qed.

(** X2. What [getAxisValue] returns is either 0 or the answer of
    [getAxisValueForGamepad] for some slot, and then a non-zero value of a
    magnitude above the deadzone: the query over all devices never makes up
    a value. *)
Theorem getAxisValue_zero_or_device (deadzone : number) (s : Store) (a : nat) :
  getAxisValue deadzone s a = zero
  ∨ ∃ k, getAxisValueForGamepad s k a = getAxisValue deadzone s a
         ∧ counts deadzone (getAxisValue deadzone s a).
Proof.
  unfold getAxisValue.
  destruct (getAxisValue_loop_cases deadzone a (object_entries (axisStates s)))
    as [H|(k & pad & v & Hin & Hv & Hc & H)]; [by left|right].
  rewrite H. exists k. apply elem_of_object_entries in Hin.
  split; [|by apply axis_counts_iff].
  unfold getAxisValueForGamepad. rewrite Hin. simpl. rewrite Hv.
  simpl in Hc. apply andb_true_iff in Hc as [-> _]. done.
Qed.

(** X3. Neither axis query ever returns NaN or the negative zero, whatever
    the store holds: a falsy stored value is answered by the literal 0. *)
Theorem axis_queries_plain_numbers (deadzone : number) (s : Store)
    (g a : nat) :
  getAxisValueForGamepad s g a ≠ S754_nan
  ∧ getAxisValueForGamepad s g a ≠ S754_zero true
  ∧ getAxisValue deadzone s a ≠ S754_nan
  ∧ getAxisValue deadzone s a ≠ S754_zero true.
Proof.
  assert (Hfg : ∀ r, (getAxisValueForGamepad s g a = r) →
                     r = zero ∨ truthy r = true).
  { intros r <-. unfold getAxisValueForGamepad.
    destruct (axisStates s !! g ≫= _) as [v|]; [|by left].
    destruct (truthy v) eqn:Ht; [by right|by left]. }
  assert (Hfa : getAxisValue deadzone s a = zero
                ∨ truthy (getAxisValue deadzone s a) = true).
  { unfold getAxisValue.
    destruct (getAxisValue_loop_cases deadzone a
                (object_entries (axisStates s)))
      as [H|(k & pad & v & _ & _ & Hc & H)]; [by left|right].
    rewrite H. simpl in Hc. by apply andb_true_iff in Hc as [-> _]. }
  destruct (Hfg _ eq_refl) as [H1|H1], Hfa as [H2|H2];
    repeat split; intros E; rewrite E in *; done.
Qed.

Lemma padAxes_not_nan deadzone gp j v :
  padAxes deadzone gp !! j = Some v → v ≠ S754_nan.
Proof.
  rewrite padAxes_lookup. destruct (axes gp !! j) as [raw|]; [|done].
  intros [= <-]. apply normalize_axis_not_nan.
Qed.

Lemma axes_are_numbers_poll_gamepad deadzone s gp :
  axes_are_numbers s → axes_are_numbers (poll_gamepad deadzone s gp).
Proof.
  intros Hs. unfold poll_gamepad. destruct (gamepad_changed s gp); [|done].
  intros k pad j v. simpl. destruct (decide (index gp = k)) as [->|Hne].
  - rewrite lookup_insert_eq. intros [= <-]. apply padAxes_not_nan.
  - rewrite lookup_insert_ne by done. apply Hs.
Qed.

(** X4. In every store of a session no published axis value is NaN, whatever
    raw values, timestamps and deadzone the host and the caller supply: a raw
    NaN fails the deadzone test and is stored as 0, and rounding a number
    gives a number. *)
Theorem session_axes_are_numbers (deadzone : number) (s : Store) :
  reachable deadzone any_event s → axes_are_numbers s.
Proof.
  induction 1 as [navigator|s ev _ IH _].
  - intros k pad j v.
    destruct (buttonStates_mount navigator initial_store) as [_ ->].
    simpl. by rewrite lookup_empty.
  - destruct ev as [gp|navigator gp|navigator]; simpl.
    + exact IH.
    + intros k pad j v. simpl. destruct (decide (index gp = k)) as [->|Hne].
      * by rewrite lookup_delete_eq.
      * rewrite lookup_delete_ne by done. apply IH.
    + unfold checkGamepadInputs. apply tick_ind; [done|].
      intros s' gp _. apply axes_are_numbers_poll_gamepad.
Qed.

Lemma session_axes_are_numbers_witness :
  let gp := Sample.pad 0 (decimal false 12345 1) [S754_nan; Sample.half] in
  axes_are_numbers
    (step Sample.default_deadzone (mount (Some [Some gp]) initial_store)
          (Tick (Some [Some gp]))).
Proof.
  intros gp. apply (session_axes_are_numbers Sample.default_deadzone).
  apply reach_step; [apply reach_mount|exact I].
Defined.

(** X5. A poll tick never touches the device set or the connected flag, and
    never removes anything: a slot that had a stored timestamp, button state
    or axis state before the tick still has one after it, also when the host
    list no longer shows the device. *)
Theorem tick_only_adds (deadzone : number) (navigator : Navigator)
    (s : Store) :
  let s' := checkGamepadInputs deadzone navigator s in
  gamepads s' = gamepads s
  ∧ isGamepadConnected s' = isGamepadConnected s
  ∧ ∀ k,
      (is_Some (prevTimestamps s !! k) → is_Some (prevTimestamps s' !! k))
      ∧ (is_Some (buttonStates s !! k) → is_Some (buttonStates s' !! k))
      ∧ (is_Some (axisStates s !! k) → is_Some (axisStates s' !! k)).
Proof.
  intros s'. subst s'.
  split; [apply gamepads_tick|]. split; [apply isGamepadConnected_tick|].
  intros k. unfold checkGamepadInputs.
  apply (tick_ind deadzone (λ s',
    (is_Some (prevTimestamps s !! k) → is_Some (prevTimestamps s' !! k))
    ∧ (is_Some (buttonStates s !! k) → is_Some (buttonStates s' !! k))
    ∧ (is_Some (axisStates s !! k) → is_Some (axisStates s' !! k))));
    [done|].
  intros s' gp _ (H1 & H2 & H3). unfold poll_gamepad.
  destruct (gamepad_changed s' gp); [|done]. simpl.
  destruct (decide (index gp = k)) as [->|Hne].
  - rewrite !lookup_insert_eq. eauto.
  - rewrite !lookup_insert_ne by done. done.
Qed.

Lemma store_eq (s1 s2 : Store) :
  gamepads s1 = gamepads s2 →
  buttonStates s1 = buttonStates s2 →
  axisStates s1 = axisStates s2 →
  isGamepadConnected s1 = isGamepadConnected s2 →
  prevTimestamps s1 = prevTimestamps s2 →
  s1 = s2.
Proof. destruct s1, s2. simpl. by intros -> -> -> -> ->. Qed.

(** X6. Attach and detach compose by slot: a detach undoes an attach at the
    same slot (the result is the detach alone), a second attach at a slot
    overwrites the first, and a second detach of a slot only recomputes the
    connected flag. *)
Theorem attach_detach_compose (s : Store) (gp gp' : Gamepad)
    (navigator navigator' : Navigator) :
  index gp' = index gp →
  handleGamepadDisconnected navigator gp (handleGamepadConnected gp' s)
  = handleGamepadDisconnected navigator gp s
  ∧ handleGamepadConnected gp (handleGamepadConnected gp' s)
    = handleGamepadConnected gp s
  ∧ handleGamepadDisconnected navigator gp
      (handleGamepadDisconnected navigator' gp' s)
    = handleGamepadDisconnected navigator gp s.
Proof.
  intros Hix.
  split; [|split]; apply store_eq; simpl; rewrite ?Hix;
    by rewrite ?delete_insert_eq, ?insert_insert_eq, ?delete_delete_eq.
Qed.

Lemma attach_detach_compose_witness :
  let gp := Sample.pad 2 (decimal false 12345 1) [Sample.half] in
  let gp' := Sample.pad 2 zero [] in
  let s := handleGamepadConnected (Sample.pad 0 zero []) initial_store in
  handleGamepadDisconnected (Some [Some gp]) gp (handleGamepadConnected gp' s)
  = handleGamepadDisconnected (Some [Some gp]) gp s
  ∧ handleGamepadConnected gp (handleGamepadConnected gp' s)
    = handleGamepadConnected gp s
  ∧ handleGamepadDisconnected (Some [Some gp]) gp
      (handleGamepadDisconnected None gp' s)
    = handleGamepadDisconnected (Some [Some gp]) gp s.
Proof.
  intros gp gp' s. apply (attach_detach_compose s gp gp'). reflexivity.
Defined.

(** X7. After a detach the queries for the detached slot answer [false] and
    0, the queries for every other slot answer as before, and a button is
    pressed on some device exactly when it was pressed on a device of
    another slot. *)
Theorem detach_queries (navigator : Navigator) (gp : Gamepad) (s : Store) :
  let s' := handleGamepadDisconnected navigator gp s in
  (∀ b, isButtonPressedOnGamepad s' (index gp) b = false)
  ∧ (∀ a, getAxisValueForGamepad s' (index gp) a = zero)
  ∧ (∀ g b, g ≠ index gp →
       isButtonPressedOnGamepad s' g b = isButtonPressedOnGamepad s g b)
  ∧ (∀ g a, g ≠ index gp →
       getAxisValueForGamepad s' g a = getAxisValueForGamepad s g a)
  ∧ (∀ b, isButtonPressed s' b = true ↔
          ∃ g, g ≠ index gp ∧ isButtonPressedOnGamepad s g b = true).
Proof.
  intros s'. subst s'.
  assert (H3 : ∀ g b, g ≠ index gp →
    isButtonPressedOnGamepad (handleGamepadDisconnected navigator gp s) g b
    = isButtonPressedOnGamepad s g b).
  { intros g b Hg. unfold isButtonPressedOnGamepad. simpl.
    by rewrite lookup_delete_ne. }
  assert (H1 : ∀ b,
    isButtonPressedOnGamepad (handleGamepadDisconnected navigator gp s)
      (index gp) b = false).
  { intros b. unfold isButtonPressedOnGamepad. simpl.
    by rewrite lookup_delete_eq. }
  split; [exact H1|]. split; [|split; [exact H3|split]].
  - intros a. unfold getAxisValueForGamepad. simpl.
    by rewrite lookup_delete_eq.
  - intros g a Hg. unfold getAxisValueForGamepad. simpl.
    by rewrite lookup_delete_ne.
  - intros b. rewrite isButtonPressed_true_iff. split.
    + intros (g & pb & st & Hg & Hst & Hp). simpl in Hg.
      apply lookup_delete_Some in Hg as [Hne Hg]. exists g.
      split; [done|]. apply isButtonPressedOnGamepad_true_iff. eauto.
    + intros (g & Hne & Hg).
      apply isButtonPressedOnGamepad_true_iff in Hg
        as (pb & st & Hg & Hst & Hp).
      exists g, pb, st. simpl. rewrite lookup_delete_ne by done. done.
Qed.

Section ScanFacts.
Implicit Types (pads : list (option Gamepad)) (s : Store).

Lemma host_indexed_snoc pads slot :
  host_indexed (pads ++ [slot]) →
  host_indexed pads ∧ ∀ gp, slot = Some gp → index gp = length pads.
Proof.
  intros Hidx. split.
  - intros i gp Hi. apply Hidx. by apply lookup_app_l_Some.
  - intros gp ->. apply Hidx. by apply list_lookup_middle.
Qed.

(** The scan over a host list that puts every device at its [index]. *)
Lemma scan_indexed pads (cp : gmap nat Gamepad) (cur : gmap nat number)
    (has : bool) :
  host_indexed pads →
  let r := fold_left scan_slot pads (cp, cur, has) in
  ∀ k,
    r.1.1 !! k = match pads !! k with
                 | Some (Some gp) => Some gp
                 | _ => cp !! k
                 end
    ∧ r.1.2 !! k = match pads !! k with
                   | Some (Some _) => Some zero
                   | _ => cur !! k
                   end.
Proof.
  induction pads as [|slot pads IH] using rev_ind; intros Hidx r k.
  - done.
  - subst r. rewrite fold_left_app. simpl.
    apply host_indexed_snoc in Hidx as [Hidx Hlast].
    specialize (IH Hidx k). simpl in IH.
    destruct (fold_left scan_slot pads (cp, cur, has)) as [[cp' cur'] has'].
    simpl in IH. destruct IH as [IH1 IH2].
    destruct (decide (k = length pads)) as [->|Hne].
    + rewrite list_lookup_middle by done.
      rewrite lookup_ge_None_2 in IH1, IH2 by lia.
      destruct slot as [gp|]; simpl; [|done].
      rewrite (Hlast gp eq_refl), !lookup_insert_eq. done.
    + destruct (decide (k < length pads)) as [Hlt|Hge].
      * rewrite lookup_app_l by done.
        destruct slot as [gp|]; simpl; [|done].
        rewrite (Hlast gp eq_refl), !lookup_insert_ne by lia. done.
      * rewrite lookup_ge_None_2 by (rewrite length_app; simpl; lia).
        rewrite lookup_ge_None_2 in IH1, IH2 by lia.
        destruct slot as [gp|]; simpl; [|done].
        rewrite (Hlast gp eq_refl), !lookup_insert_ne by lia. done.
Qed.

Lemma mount_indexed pads s k :
  host_indexed pads →
  existsb (λ slot : option Gamepad, bool_decide (slot ≠ None)) pads = true →
  gamepads (mount (Some pads) s) !! k = default None (pads !! k)
  ∧ isGamepadConnected (mount (Some pads) s) = true.
Proof.
  intros Hidx Hex. unfold mount. simpl.
  pose proof (scan_indexed pads ∅ (prevTimestamps s) false Hidx k) as Hk.
  pose proof (scan_slots_spec pads (∅, prevTimestamps s, false)) as Hs.
  destruct (fold_left scan_slot pads (∅, prevTimestamps s, false))
    as [[cp cur] has]. simpl in *.
  destruct Hs as (_ & _ & ->).
  { intros k'. rewrite lookup_empty. by intros []. }
  rewrite Hex. simpl. split; [|done]. destruct Hk as [-> _].
  destruct (pads !! k) as [[gp|]|]; simpl; try done; apply lookup_empty.
Qed.

Lemma mount_timestamps pads s k :
  host_indexed pads →
  prevTimestamps (mount (Some pads) s) !! k
  = match pads !! k with
    | Some (Some _) => Some zero
    | _ => prevTimestamps s !! k
    end.
Proof.
  intros Hidx. unfold mount. simpl.
  pose proof (scan_indexed pads ∅ (prevTimestamps s) false Hidx k) as Hk.
  destruct (fold_left scan_slot pads (∅, prevTimestamps s, false))
    as [[cp cur] has]. simpl in *. destruct Hk as [_ Hk].
  by destruct has.
Qed.

End ScanFacts.

(** X8. The scan of the mount effect, over a host list that puts every device
    at the position of its [index]: when the list has a device, the device
    set becomes exactly the devices of the list by slot (replacing whatever
    it held) and the connected flag true; the stored timestamp of every
    listed device is reset to 0 and no other timestamp changes; the
    published button and axis states are kept.  A list with only empty slots
    leaves the store as it is. *)
Theorem mount_scans_host (pads : list (option Gamepad)) (s : Store) :
  host_indexed pads →
  let s' := mount (Some pads) s in
  (existsb (λ slot : option Gamepad, bool_decide (slot ≠ None)) pads = true →
   isGamepadConnected s' = true ∧ ∀ k, gamepads s' !! k = default None (pads !! k))
  ∧ (∀ k, prevTimestamps s' !! k
          = match pads !! k with
            | Some (Some _) => Some zero
            | _ => prevTimestamps s !! k
            end)
  ∧ buttonStates s' = buttonStates s
  ∧ axisStates s' = axisStates s
  ∧ (existsb (λ slot : option Gamepad, bool_decide (slot ≠ None)) pads = false →
     s' = s).
Proof.
  intros Hidx s'. subst s'. split; [|split; [|split; [|split]]].
  - intros Hex. split.
    + by apply (mount_indexed pads s 0).
    + intros k. by apply mount_indexed.
  - intros k. by apply mount_timestamps.
  - apply buttonStates_mount.
  - apply buttonStates_mount.
  - apply mount_no_devices.
Qed.

Lemma mount_scans_host_witness :
  let gp := Sample.pad 1 (decimal false 12345 1) [Sample.half] in
  let s := handleGamepadConnected (Sample.pad 3 zero []) initial_store in
  let s' := mount (Some [None; Some gp; None; None]) s in
  isGamepadConnected s' = true
  ∧ (∀ k, gamepads s' !! k = default None ([None; Some gp; None; None] !! k))
  ∧ mount (Some [None; None; None; None]) s = s.
Proof.
  intros gp s.
  assert (Hidx : ∀ g : option Gamepad, g = None ∨ g = Some gp →
                   host_indexed [None; g; None; None]).
  { intros g Hg i g' Hi.
    destruct i as [|[|[|[|i]]]]; simpl in Hi; try done.
    destruct Hg as [->| ->]; by simplify_eq. }
  destruct (mount_scans_host [None; Some gp; None; None] s
              (Hidx _ (or_intror eq_refl))) as (H1 & _).
  destruct (mount_scans_host [None; None; None; None] s
              (Hidx _ (or_introl eq_refl))) as (_ & _ & _ & _ & H5).
  destruct (H1 eq_refl) as [Hc Hg].
  split; [exact Hc|]. split; [exact Hg|]. apply H5. reflexivity.
Defined.

(** X9. A device whose timestamp is falsy (0, -0 or NaN) is never published:
    a tick over a host list whose devices all have such a timestamp leaves
    the whole store as it is, whatever their buttons and axes say. *)
Theorem tick_skips_falsy_timestamps (deadzone : number)
    (pads : list (option Gamepad)) (s : Store) :
  (∀ gp, Some gp ∈ pads → truthy (timestamp gp) = false) →
  checkGamepadInputs deadzone (Some pads) s = s.
Proof.
  intros Hf. unfold checkGamepadInputs. simpl. apply tick_unchanged_noop.
  intros gp Hin. unfold gamepad_changed. by rewrite (Hf gp Hin).
Qed.

Lemma tick_skips_falsy_timestamps_witness :
  let pads := [Some (Sample.pad 0 zero [Sample.half]);
               None;
               Some (Sample.pad 2 S754_nan [Sample.half])] in
  checkGamepadInputs Sample.default_deadzone (Some pads) initial_store
  = initial_store.
Proof.
  intros pads. apply (tick_skips_falsy_timestamps Sample.default_deadzone).
  intros gp Hin. repeat (apply elem_of_cons in Hin as [Hin|Hin];
    [by simplify_eq|]). by apply elem_of_nil in Hin.
Defined.

Section OrderFacts.
Variable deadzone : number.
Implicit Types (pads : list (option Gamepad)) (s : Store).

Lemma slot_listed_or_not pads k :
  (∃ i gp, pads !! i = Some (Some gp) ∧ index gp = k)
  ∨ (∀ gp, Some gp ∈ pads → index gp ≠ k).
Proof.
  induction pads as [|slot pads IH].
  - right. intros gp Hin. by apply elem_of_nil in Hin.
  - destruct slot as [g|].
    + destruct (decide (index g = k)) as [He|Hne].
      * left. by exists 0, g.
      * destruct IH as [(i & gp & Hi & He)|IH].
        -- left. by exists (S i), gp.
        -- right. intros gp [[= ->]|Hin]%elem_of_cons; [done|by apply IH].
    + destruct IH as [(i & gp & Hi & He)|IH].
      * left. by exists (S i), gp.
      * right. intros gp [?|Hin]%elem_of_cons; [done|by apply IH].
Qed.

Lemma distinct_slots_perm pads pads' :
  pads ≡ₚ pads' → distinct_slots pads → distinct_slots pads'.
Proof.
  intros Hp. induction Hp as [|slot l l' Hp IH|x y l|l1 l2 l3 H12 IH12 H23 IH23].
  - done.
  - intros Hd. pose proof (distinct_slots_tail _ _ Hd) as Hd'.
    specialize (IH Hd'). intros i j g g' Hi Hj He.
    destruct i as [|i], j as [|j]; simpl in *; [done|..].
    + exfalso. injection Hi as ->.
      assert (Some g' ∈ l) as [j' Hj']%list_elem_of_lookup.
      { rewrite Hp. apply list_elem_of_lookup. eauto. }
      specialize (Hd 0 (S j') g g' eq_refl Hj' He). lia.
    + exfalso. injection Hj as ->.
      assert (Some g ∈ l) as [i' Hi']%list_elem_of_lookup.
      { rewrite Hp. apply list_elem_of_lookup. eauto. }
      specialize (Hd (S i') 0 g g' Hi' eq_refl He). lia.
    + f_equal. by eapply IH.
  - intros Hd i j g g' Hi Hj He.
    assert (Hsw : ∀ n : nat, (x :: y :: l) !! n
              = (y :: x :: l) !! (match n with 0 => 1 | 1 => 0 | _ => n end)).
    { by intros [|[|n]]. }
    rewrite Hsw in Hi, Hj. specialize (Hd _ _ _ _ Hi Hj He).
    destruct i as [|[|i]], j as [|[|j]]; simpl in *; lia.
  - intros Hd. by apply IH23, IH12.
Qed.

Lemma tick_perm pads pads' s :
  pads ≡ₚ pads' →
  distinct_slots pads →
  fold_left (poll_slot deadzone) pads s
  = fold_left (poll_slot deadzone) pads' s.
Proof.
  intros Hp Hd. pose proof (distinct_slots_perm _ _ Hp Hd) as Hd'.
  assert (Hview : ∀ k,
    slot_view (fold_left (poll_slot deadzone) pads s) k
    = slot_view (fold_left (poll_slot deadzone) pads' s) k).
  { intros k. destruct (slot_listed_or_not pads k)
      as [(i & gp & Hi & <-)|Hno].
    - assert (Some gp ∈ pads') as [i' Hi']%list_elem_of_lookup.
      { rewrite <- Hp. apply list_elem_of_lookup. eauto. }
      rewrite (tick_slot_view deadzone pads s i gp Hd Hi).
      by rewrite (tick_slot_view deadzone pads' s i' gp Hd' Hi').
    - rewrite !slot_view_tick_other; [done| |done].
      intros gp Hin. apply Hno. by rewrite Hp. }
  apply store_eq.
  - pose proof (gamepads_tick deadzone (Some pads) s) as H1.
    pose proof (gamepads_tick deadzone (Some pads') s) as H2.
    unfold checkGamepadInputs in H1, H2. simpl in H1, H2. congruence.
  - apply map_eq. intros k. specialize (Hview k). by injection Hview.
  - apply map_eq. intros k. specialize (Hview k). by injection Hview.
  - pose proof (isGamepadConnected_tick deadzone (Some pads) s) as H1.
    pose proof (isGamepadConnected_tick deadzone (Some pads') s) as H2.
    unfold checkGamepadInputs in H1, H2. simpl in H1, H2. congruence.
  - apply map_eq. intros k. specialize (Hview k). by injection Hview.
Qed.

End OrderFacts.

(** X10. Over a host list whose devices have pairwise different [index], a
    tick handles every device on its own: what it leaves for the slot of a
    listed device is what polling that device alone leaves, a slot of no
    listed device keeps what it had, and the order of the list does not
    matter (any rearrangement of the list gives the same store). *)
Theorem tick_slot_by_slot (deadzone : number) (pads : list (option Gamepad))
    (s : Store) :
  distinct_slots pads →
  let s' := checkGamepadInputs deadzone (Some pads) s in
  (∀ i gp, pads !! i = Some (Some gp) →
     slot_view s' (index gp) = slot_view (poll_gamepad deadzone s gp) (index gp))
  ∧ (∀ k, (∀ gp, Some gp ∈ pads → index gp ≠ k) →
       slot_view s' k = slot_view s k)
  ∧ (∀ pads', pads ≡ₚ pads' →
       checkGamepadInputs deadzone (Some pads') s = s').
Proof.
  intros Hd s'. subst s'. unfold checkGamepadInputs. simpl.
  split; [|split].
  - intros i gp. by apply tick_slot_view.
  - intros k. apply slot_view_tick_other.
  - intros pads' Hp. symmetry. by apply tick_perm.
Qed.

Lemma tick_slot_by_slot_witness :
  let a := Sample.pad 0 (decimal false 12345 1) [Sample.half] in
  let b := Sample.pad 2 (decimal false 777 0) [zero] in
  checkGamepadInputs Sample.default_deadzone (Some [Some b; None; Some a])
    initial_store
  = checkGamepadInputs Sample.default_deadzone (Some [Some a; None; Some b])
      initial_store.
Proof.
  intros a b.
  destruct (tick_slot_by_slot Sample.default_deadzone
              [Some a; None; Some b] initial_store) as (_ & _ & H).
  - intros i j g g' Hi Hj He.
    destruct i as [|[|[|i]]], j as [|[|[|j]]]; simpl in Hi, Hj;
      simplify_eq; done.
  - apply H. simpl.
    etrans; [apply (perm_swap None (Some a))|].
    etrans; [apply perm_skip, (perm_swap (Some b) (Some a))|].
    apply (perm_swap (Some b) None).
Defined.

(** X11. Publish, then query: after a tick over a host list that puts every
    device at its [index], a device that the tick found changed is what the
    per-device queries answer from.  [isButtonPressedOnGamepad] gives the
    [pressed] flag of the device's button, and [false] beyond its last
    button; [getAxisValueForGamepad] gives the normalized axis value, with 0
    for a value normalized to zero and beyond the last axis. *)
Theorem tick_then_query (deadzone : number) (pads : list (option Gamepad))
    (s : Store) (i : nat) (gp : Gamepad) :
  host_indexed pads →
  pads !! i = Some (Some gp) →
  gamepad_changed s gp = true →
  let s' := checkGamepadInputs deadzone (Some pads) s in
  (∀ j, isButtonPressedOnGamepad s' i j
        = match buttons gp !! j with
          | Some b => gb_pressed b
          | None => false
          end)
  ∧ (∀ j, getAxisValueForGamepad s' i j
          = match axes gp !! j with
            | Some v =>
                if truthy (normalize_axis deadzone v)
                then normalize_axis deadzone v
                else zero
            | None => zero
            end).
Proof.
  intros Hidx Hi Hch s'. subst s'.
  pose proof (tick_slot_view deadzone pads s i gp
                (host_indexed_distinct_slots _ Hidx) Hi) as Hview.
  rewrite (Hidx i gp Hi) in Hview.
  rewrite (poll_gamepad_changed _ _ _ Hch) in Hview.
  unfold slot_view in Hview. simpl in Hview.
  rewrite (Hidx i gp Hi), !lookup_insert_eq in Hview.
  unfold checkGamepadInputs. simpl.
  injection Hview as _ Hb Ha. split.
  - intros j. unfold isButtonPressedOnGamepad, button_pressed.
    rewrite Hb, padButtons_lookup.
    destruct (buttons gp !! j); simpl; [apply orb_false_r|done].
  - intros j. unfold getAxisValueForGamepad. rewrite Ha. simpl.
    rewrite padAxes_lookup. by destruct (axes gp !! j).
Qed.

Lemma tick_then_query_witness :
  let gp := Sample.pad 1 (decimal false 12345 1)
              [decimal true 75 2; decimal false 5 2] in
  let s' := checkGamepadInputs Sample.default_deadzone (Some [None; Some gp])
              (handleGamepadConnected gp initial_store) in
  (∀ j, isButtonPressedOnGamepad s' 1 j
        = match buttons gp !! j with
          | Some b => gb_pressed b
          | None => false
          end)
  ∧ (∀ j, getAxisValueForGamepad s' 1 j
          = match axes gp !! j with
            | Some v =>
                if truthy (normalize_axis Sample.default_deadzone v)
                then normalize_axis Sample.default_deadzone v
                else zero
            | None => zero
            end).
Proof.
  intros gp.
  apply (tick_then_query Sample.default_deadzone [None; Some gp]
           (handleGamepadConnected gp initial_store) 1 gp).
  - intros i g Hi. destruct i as [|[|i]]; simpl in Hi; by simplify_eq.
  - reflexivity.
  - vm_compute. reflexivity.
Defined.

(** X12. Running the mount effect again (as React does when [deadzone] or
    [pollInterval] changes) resets the stored timestamp of every listed
    device, so the next tick publishes every listed device with a truthy
    timestamp afresh, normalized with the deadzone of that tick, even when
    its timestamp has not moved since the last publication. *)
Theorem remount_republishes (deadzone : number)
    (pads pads' : list (option Gamepad)) (s : Store) (i : nat)
    (gp : Gamepad) :
  host_indexed pads →
  host_indexed pads' →
  is_Some (default None (pads !! i)) →
  pads' !! i = Some (Some gp) →
  truthy (timestamp gp) = true →
  let s1 := mount (Some pads) s in
  let s2 := checkGamepadInputs deadzone (Some pads') s1 in
  gamepad_changed s1 gp = true
  ∧ prevTimestamps s2 !! i = Some (timestamp gp)
  ∧ buttonStates s2 !! i = Some (padButtons gp)
  ∧ axisStates s2 !! i = Some (padAxes deadzone gp).
Proof.
  intros Hidx Hidx' [g Hg] Hi Ht s1 s2.
  assert (Hch : gamepad_changed s1 gp = true).
  { apply gamepad_changed_iff. split; [done|].
    subst s1. rewrite (Hidx' i gp Hi), mount_timestamps by done.
    destruct (pads !! i) as [[g'|]|]; try done.
    intros [= Hz]. rewrite <- Hz in Ht. done. }
  split; [done|].
  pose proof (tick_slot_view deadzone pads' s1 i gp
                (host_indexed_distinct_slots _ Hidx') Hi) as Hview.
  rewrite (poll_gamepad_changed _ _ _ Hch) in Hview.
  unfold slot_view in Hview. simpl in Hview.
  rewrite (Hidx' i gp Hi), !lookup_insert_eq in Hview.
  subst s2. unfold checkGamepadInputs. simpl. by simplify_eq.
Qed.

Lemma remount_republishes_witness :
  let gp := Sample.pad 0 (decimal false 12345 1) [decimal false 15 2] in
  let s := checkGamepadInputs Sample.default_deadzone (Some [Some gp])
             (mount (Some [Some gp]) initial_store) in
  let s1 := mount (Some [Some gp]) s in
  let s2 := checkGamepadInputs Sample.half (Some [Some gp]) s1 in
  gamepad_changed s gp = false
  ∧ gamepad_changed s1 gp = true
  ∧ prevTimestamps s2 !! 0 = Some (timestamp gp)
  ∧ buttonStates s2 !! 0 = Some (padButtons gp)
  ∧ axisStates s2 !! 0 = Some (padAxes Sample.half gp).
Proof.
  intros gp s. split; [vm_compute; reflexivity|].
  assert (Hidx : host_indexed [Some gp]).
  { intros i g Hi. destruct i as [|i]; simpl in Hi; by simplify_eq. }
  apply (remount_republishes Sample.half [Some gp] [Some gp] s 0 gp Hidx Hidx).
  - simpl. eauto.
  - reflexivity.
  - reflexivity.
Defined.

Lemma binary_round_aux_opp sx mx ex lx :
  binary_round_aux prec emax (negb sx) mx ex lx
  = SFopp (binary_round_aux prec emax sx mx ex lx).
Proof.
  unfold binary_round_aux.
  destruct (shr_fexp prec emax mx ex lx) as [mrs' e'].
  destruct (shr_fexp prec emax _ e' loc_Exact) as [mrs'' e''].
  destruct (shr_m mrs''); [done| |done].
  by destruct (e'' <=? emax - prec)%Z.
Qed.

Lemma decimal_opp neg n f : decimal (negb neg) n f = SFopp (decimal neg n f).
Proof.
  destruct n as [|p]; [done|]. unfold decimal, SFdiv.
  destruct (SFdiv_core_binary prec emax (Z.pos p) 0
              (Z.pos (Z.to_pos (10 ^ Z.of_nat f))) 0) as [[mz ez] lz].
  rewrite !xorb_false_r. apply binary_round_aux_opp.
Qed.

Lemma parseFloat_toFixed_opp v f :
  truthy v = true →
  parseFloat (toFixed (SFopp v) f) = SFopp (parseFloat (toFixed v f)).
Proof.
  destruct v as [s|s| |s m e]; intros Hv; [done|done|done|].
  unfold toFixed. cbn [SFopp].
  destruct (SFleb _ _); [done|]. cbn [parseFloat]. apply decimal_opp.
Qed.

(** X13. The normalization treats the two directions of an axis alike: for a
    raw value whose magnitude is above the deadzone, the value stored for the
    opposite raw value is the opposite of the value stored for it. *)
Theorem normalize_axis_symmetric (deadzone v : number) :
  gt (abs v) deadzone = true →
  truthy v = true →
  normalize_axis deadzone (SFopp v) = SFopp (normalize_axis deadzone v).
Proof.
  intros Hgt Hv. unfold normalize_axis.
  assert (Habs : abs (SFopp v) = abs v) by (by destruct v).
  rewrite Habs, Hgt. by apply parseFloat_toFixed_opp.
Qed.

Lemma normalize_axis_symmetric_witness :
  normalize_axis Sample.default_deadzone (SFopp (decimal false 23456 5))
  = SFopp (normalize_axis Sample.default_deadzone (decimal false 23456 5)).
Proof.
  apply (normalize_axis_symmetric Sample.default_deadzone
           (decimal false 23456 5)); vm_compute; reflexivity.
Defined.
